(** * redcaps-downloader: [ImageDownloader.download]

    A shallow embedding of [src/redcaps/downloaders/image_downloader.py]
    and the properties of its resize/crop geometry, of its success and
    failure classification and of its effect on the file system.

    The Python code runs on three libraries that are not part of the
    repository: [requests] (one call, [requests.get]), Pillow
    ([Image.open], [convert], [resize], [crop], [save]) and [os]
    ([os.path.dirname], [os.makedirs]).  What the code does with Python
    numbers (binary64 floats, unbounded integers), with strings and with
    exceptions is written out below; what the codecs do with pixels is a
    parameter ([Collaborators]). *)

From Stdlib Require Import ZArith QArith Qround Qabs Qpower Lqa Lia SpecFloat.
From Stdlib Require Import String Ascii List.
From Stdlib.Strings Require Import Byte.
From stdpp Require Import gmap strings.

Open Scope Z_scope.

(** ** Python exceptions and fallible computations *)

(** The exception classes that the calls of [download] raise.  All of them
    derive from [Exception], the class that [download] catches. *)
Inductive exn : Type :=
| RequestException      (* requests: connection, time-out, invalid URL *)
| UnidentifiedImageError (* Pillow: the bytes are no image *)
| OSError               (* Pillow or os: truncated file, input/output error *)
| FileNotFoundError
| FileExistsError
| NotADirectoryError
| IsADirectoryError
| ValueError
| OverflowError
| ZeroDivisionError
| MemoryError.

Inductive result (A : Type) : Type :=
| Ok (a : A)
| Raise (e : exn).
Arguments Ok {A} a.
Arguments Raise {A} e.

#[global] Instance result_bind : MBind result := fun A B k r =>
  match r with
  | Ok a => k a
  | Raise e => Raise e
  end.
#[global] Instance result_ret : MRet result := fun A a => Ok a.

Definition is_ok {A : Type} (r : result A) : bool :=
  match r with Ok _ => true | Raise _ => false end.

(** ** Python numbers

    A Python [float] is an IEEE 754 binary64 number, here a [spec_float]
    of the Standard Library (sign, 53-bit mantissa, exponent).  Every
    operation returns the exact rational result rounded to the nearest
    representable number, ties to the even mantissa; the exact results are
    computed in [Q]. *)
Module PyFloat.

Definition float : Type := spec_float.

Definition prec : Z := 53.
Definition emax : Z := 1024.
(** Exponent of the least significant bit of the subnormal numbers. *)
Definition emin : Z := 3 - emax - prec.

(** Value of a finite float; infinities and NaN have none (0 here). *)
Definition F2Q (x : float) : Q :=
  match x with
  | S754_finite s m e =>
      (if s then - inject_Z (Zpos m) else inject_Z (Zpos m)) * 2 ^ e
  | _ => 0
  end%Q.

(** Nearest integer, ties to even: the rounding of the hardware and of
    Python's [round] on a float. *)
Definition Qrne (x : Q) : Z :=
  let f := Qfloor x in
  match Qcompare (x - inject_Z f) (1 # 2) with
  | Lt => f
  | Gt => f + 1
  | Eq => if Z.even f then f else f + 1
  end.

(** Truncation toward zero: Python's [int] on a float. *)
Definition Qtrunc (x : Q) : Z :=
  if Qle_bool 0 x then Qfloor x else Qceiling x.

(** [Qilog2 a] is the integer [k] with [2^k <= a < 2^(k+1)], for [a > 0]. *)
Definition Qilog2 (a : Q) : Z :=
  let k := Z.log2 (Qnum a) - Z.log2 (Zpos (Qden a)) in
  if Qle_bool (2 ^ k)%Q a then k else k - 1.

(** Rounding of a positive rational [a] to binary64, with sign [s]. *)
Definition round_pos (s : bool) (a : Q) : float :=
  let e := Z.max (Qilog2 a - (prec - 1)) emin in
  match Qrne (a / 2 ^ e)%Q with
  | Zpos p =>
      if Zpos p =? 2 ^ prec
      then (if e + 1 <=? emax - prec
            then S754_finite s (Z.to_pos (2 ^ (prec - 1))) (e + 1)
            else S754_infinity s)
      else (if e <=? emax - prec
            then S754_finite s p e
            else S754_infinity s)
  | _ => S754_zero s
  end.

(** Rounding of any rational; [szero] is the sign of an exact zero. *)
Definition round_Q (szero : bool) (x : Q) : float :=
  match Qcompare x 0 with
  | Eq => S754_zero szero
  | Gt => round_pos false x
  | Lt => round_pos true (- x)%Q
  end.

Definition sign_of (x : float) : bool :=
  match x with
  | S754_zero s | S754_infinity s | S754_finite s _ _ => s
  | S754_nan => false
  end.

(** IEEE 754 multiplication. *)
Definition mul (x y : float) : float :=
  let s := xorb (sign_of x) (sign_of y) in
  match x, y with
  | S754_nan, _ | _, S754_nan => S754_nan
  | S754_infinity _, S754_zero _ | S754_zero _, S754_infinity _ => S754_nan
  | S754_infinity _, _ | _, S754_infinity _ => S754_infinity s
  | S754_zero _, _ | _, S754_zero _ => S754_zero s
  | S754_finite _ _ _, S754_finite _ _ _ => round_Q s (F2Q x * F2Q y)
  end.

(** IEEE 754 division. *)
Definition div (x y : float) : float :=
  let s := xorb (sign_of x) (sign_of y) in
  match x, y with
  | S754_nan, _ | _, S754_nan => S754_nan
  | S754_infinity _, S754_infinity _ | S754_zero _, S754_zero _ => S754_nan
  | S754_infinity _, _ | _, S754_zero _ => S754_infinity s
  | S754_zero _, _ | _, S754_infinity _ => S754_zero s
  | S754_finite _ _ _, S754_finite _ _ _ => round_Q s (F2Q x / F2Q y)
  end.

Definition is_zero (x : float) : bool :=
  match x with S754_zero _ => true | _ => false end.

(** [float(z)] and the implicit conversion of an [int] operand: the
    nearest float, [OverflowError] when that is no finite number. *)
Definition of_int (z : Z) : result float :=
  match round_Q false (inject_Z z) with
  | S754_infinity _ => Raise OverflowError
  | f => Ok f
  end.

(** [a / y] for an [int] [a] and a [float] [y]. *)
Definition int_truediv_float (a : Z) (y : float) : result float :=
  x ← of_int a;
  if is_zero y then Raise ZeroDivisionError else Ok (div x y).

(** [a * y] for an [int] [a] and a [float] [y]. *)
Definition int_mul_float (a : Z) (y : float) : result float :=
  x ← of_int a; Ok (mul x y).

(** [a / b] for two [int]s: the correctly rounded quotient. *)
Definition int_truediv (a b : Z) : result float :=
  if b =? 0 then Raise ZeroDivisionError
  else match round_Q (b <? 0) (inject_Z a / inject_Z b) with
       | S754_infinity _ => Raise OverflowError
       | f => Ok f
       end.

(** [round(x)] with one argument: an [int], ties to even. *)
Definition round (x : float) : result Z :=
  match x with
  | S754_nan => Raise ValueError
  | S754_infinity _ => Raise OverflowError
  | _ => Ok (Qrne (F2Q x))
  end.

(** [int(x)] on a float: truncation toward zero. *)
Definition to_int (x : float) : result Z :=
  match x with
  | S754_nan => Raise ValueError
  | S754_infinity _ => Raise OverflowError
  | _ => Ok (Qtrunc (F2Q x))
  end.

(** *** Quantities that state the accuracy of the operations *)

(** Value of the float with mantissa [m] and exponent [e]. *)
Definition mag (m : positive) (e : Z) : Q :=
  (inject_Z (Zpos m) * 2 ^ e)%Q.

(** The unit roundoff of binary64, [2^-53]. *)
Definition u : Q := (1 # 9007199254740992)%Q.

(** [scale] is a positive float within relative error [u] of [T / m]. *)
Definition scale_of (T m : Z) (scale : float) : Prop :=
  exists ms es,
    scale = S754_finite false ms es
    /\ (inject_Z T * (1 - u) <= inject_Z m * mag ms es)%Q
    /\ (inject_Z m * mag ms es <= inject_Z T * (1 + u))%Q.

End PyFloat.

(** ** Python strings and POSIX paths *)
Module PyStr.

Definition is_sep (c : ascii) : bool := Ascii.eqb c "/".

Fixpoint startswith (needle hay : string) : bool :=
  match needle, hay with
  | EmptyString, _ => true
  | String a n, String b h => Ascii.eqb a b && startswith n h
  | String _ _, EmptyString => false
  end.

(** [needle in hay]: [needle] occurs in [hay] as a substring. *)
Fixpoint contains (needle hay : string) : bool :=
  startswith needle hay
  || match hay with
     | EmptyString => false
     | String _ h => contains needle h
     end.

Fixpoint has_sep (s : string) : bool :=
  match s with
  | EmptyString => false
  | String c r => is_sep c || has_sep r
  end.

Fixpoint all_sep (s : string) : bool :=
  match s with
  | EmptyString => true
  | String c r => is_sep c && all_sep r
  end.

(** [p[:p.rfind("/") + 1]]: [p] up to its last separator, included. *)
Fixpoint upto_last_sep (p : string) : string :=
  match p with
  | EmptyString => EmptyString
  | String c r =>
      if has_sep r then String c (upto_last_sep r)
      else if is_sep c then String c EmptyString
      else EmptyString
  end.

(** [s.rstrip("/")] *)
Fixpoint rstrip_sep (s : string) : string :=
  match s with
  | EmptyString => EmptyString
  | String c r =>
      match rstrip_sep r with
      | EmptyString => if is_sep c then EmptyString else String c EmptyString
      | r' => String c r'
      end
  end.

Definition is_empty (s : string) : bool :=
  match s with EmptyString => true | String _ _ => false end.

(** [os.path.dirname] of [posixpath]:
<<
    i = p.rfind(sep) + 1
    head = p[:i]
    if head and head != sep*len(head):
        head = head.rstrip(sep)
    return head
>> *)
Definition dirname (p : string) : string :=
  let head := upto_last_sep p in
  if negb (is_empty head) && negb (all_sep head)
  then rstrip_sep head
  else head.

(** [p.split("/")]: the components of a path, empty ones included. *)
Fixpoint split_sep (p : string) : list string :=
  match p with
  | EmptyString => [EmptyString]
  | String c r =>
      if is_sep c then EmptyString :: split_sep r
      else match split_sep r with
           | [] => [String c EmptyString]
           | x :: xs => String c x :: xs
           end
  end.

Definition is_absolute (p : string) : bool :=
  match p with
  | String c _ => is_sep c
  | EmptyString => false
  end.

End PyStr.

(** ** The file system

    A POSIX directory tree as one process sees it: no symbolic links, no
    permissions or quotas, nobody else writing.  A node is addressed by the
    list of names that leads to it from the root; the root is a directory. *)
Module Fs.

Inductive node : Type :=
| Dir
| File (content : list byte).

Abbreviation loc := (list string).
Abbreviation tree := (gmap (list string) node).

Definition is_dir (t : tree) (p : loc) : bool :=
  match p with
  | [] => true
  | _ => match t !! p with Some Dir => true | _ => false end
  end.

Definition exists_at (t : tree) (p : loc) : bool :=
  match p with
  | [] => true
  | _ => match t !! p with Some _ => true | None => false end
  end.

Definition parent (p : loc) : loc := removelast p.

Definition not_a_directory (t : tree) (p : loc) : exn :=
  if exists_at t p then NotADirectoryError else FileNotFoundError.

Definition dot : string := ".".
Definition dotdot : string := "..".

(** Path resolution: every component is looked up in a directory. *)
Fixpoint resolve (t : tree) (cur : loc) (comps : list string) : result loc :=
  match comps with
  | [] => Ok cur
  | c :: rest =>
      if negb (is_dir t cur) then Raise (not_a_directory t cur)
      else if PyStr.is_empty c || String.eqb c dot then resolve t cur rest
      else if String.eqb c dotdot then resolve t (parent cur) rest
      else resolve t (cur ++ [c]) rest
  end.

(** [os.makedirs(name, exist_ok=True)] from directory [cur] on: the
    directories of the path that are missing are created, outermost
    first; a component that exists and is no directory is an error. *)
Fixpoint makedirs_from (t : tree) (cur : loc) (comps : list string)
  : result unit * tree :=
  match comps with
  | [] => if is_dir t cur then (Ok tt, t) else (Raise FileExistsError, t)
  | c :: rest =>
      if negb (is_dir t cur) then (Raise (not_a_directory t cur), t)
      else if PyStr.is_empty c || String.eqb c dot then makedirs_from t cur rest
      else if String.eqb c dotdot then makedirs_from t (parent cur) rest
      else
        let next := cur ++ [c] in
        if exists_at t next then makedirs_from t next rest
        else makedirs_from (<[next := Dir]> t) next rest
  end.

Definition start (cwd : loc) (name : string) : loc :=
  if PyStr.is_absolute name then [] else cwd.

Definition makedirs (cwd : loc) (name : string) (t : tree)
  : result unit * tree :=
  if PyStr.is_empty name then (Raise FileNotFoundError, t)
  else makedirs_from t (start cwd name) (PyStr.split_sep name).

(** [os.path.exists(name)] *)
Definition path_exists (cwd : loc) (name : string) (t : tree) : bool :=
  if PyStr.is_empty name then false
  else match resolve t (start cwd name) (PyStr.split_sep name) with
       | Ok p => exists_at t p
       | Raise _ => false
       end.

(** The node that [open(name, "w+b")] creates or truncates. *)
Definition open_target (cwd : loc) (name : string) (t : tree) : result loc :=
  if PyStr.is_empty name then Raise FileNotFoundError
  else
    let comps := PyStr.split_sep name in
    d ← resolve t (start cwd name) (removelast comps);
    let c := List.last comps EmptyString in
    if negb (is_dir t d) then Raise (not_a_directory t d)
    else if PyStr.is_empty c || String.eqb c dot || String.eqb c dotdot
         then Raise IsADirectoryError
    else if is_dir t (d ++ [c]) then Raise IsADirectoryError
    else Ok (d ++ [c]).

(** Two trees with the same directories. *)
Definition same_dirs (t t2 : tree) : Prop := ∀ q, is_dir t q = is_dir t2 q.

(** [open(name, "rb").read()]: the bytes of the file at [name], if
    there is one. *)
Definition file_at (cwd : loc) (name : string) (t : tree)
  : option (list byte) :=
  if PyStr.is_empty name then None
  else match resolve t (start cwd name) (PyStr.split_sep name) with
       | Ok p => match t !! p with Some (File b) => Some b | _ => None end
       | Raise _ => None
       end.

End Fs.

(** ** The resize and crop geometry ([download], lines 57 to 73) *)

(** A crop box [(left, upper, right, lower)]. *)
Definition box : Type := Z * Z * Z * Z.

(**
<<
    scale = self.crop_resize / float(min(image_width, image_height))
    new_width, new_height = tuple(
        int(round(d * scale)) for d in (image_width, image_height)
    )
>> *)
Definition new_size (crop_resize image_width image_height : Z)
  : result (Z * Z) :=
  shorter ← PyFloat.of_int (Z.min image_width image_height);
  scale ← PyFloat.int_truediv_float crop_resize shorter;
  x ← PyFloat.int_mul_float image_width scale;
  new_width ← PyFloat.round x;
  y ← PyFloat.int_mul_float image_height scale;
  new_height ← PyFloat.round y;
  Ok (new_width, new_height).

(**
<<
    if new_width >= new_height:
        new_left = int((new_width - self.crop_resize) / 2)
        new_top = 0
        new_right = new_left + self.crop_resize
        new_bottom = self.crop_resize
    else:
        new_left = 0
        new_top = int((new_height - self.crop_resize) / 2)
        new_right = self.crop_resize
        new_bottom = new_top + self.crop_resize
>> *)
Definition crop_box (crop_resize new_width new_height : Z) : result box :=
  if new_width >=? new_height then
    q ← PyFloat.int_truediv (new_width - crop_resize) 2;
    new_left ← PyFloat.to_int q;
    let new_top := 0 in
    let new_right := new_left + crop_resize in
    let new_bottom := crop_resize in
    Ok (new_left, new_top, new_right, new_bottom)
  else
    let new_left := 0 in
    q ← PyFloat.int_truediv (new_height - crop_resize) 2;
    new_top ← PyFloat.to_int q;
    let new_right := crop_resize in
    let new_bottom := new_top + crop_resize in
    Ok (new_left, new_top, new_right, new_bottom).

(** Both steps, from the size of the decoded image. *)
Definition geometry (crop_resize image_width image_height : Z)
  : result (Z * Z * box) :=
  '(new_width, new_height) ← new_size crop_resize image_width image_height;
  b ← crop_box crop_resize new_width new_height;
  Ok (new_width, new_height, b).

(** ** The collaborators *)

(** What [requests.get] returns. *)
Record Response : Type := {
  status_code : Z;
  url : string;
  content : list byte
}.

(** A Pillow image: mode, size [(width, height)] and pixels. *)
Record Image (Pix : Type) : Type := {
  mode : string;
  size : Z * Z;
  im : Pix
}.
Arguments mode {Pix} _.
Arguments size {Pix} _.
Arguments im {Pix} _.

(** The parts of [requests] and Pillow that work on the network and on
    pixels.  Each is a function of its arguments: the network content is
    stable and the codecs are deterministic.  Each may raise. *)
Class Collaborators : Type := {
  Pix : Type;
  (** the network: [requests.get(url)] *)
  http_get : string -> result Response;
  (** [Image.open]: identifies the format and reads the header *)
  decode_header : list byte -> result (Image Pix);
  (** [convert]: loads the pixels and converts them to a mode *)
  convert_pixels : Image Pix -> string -> result Pix;
  (** the resampling of [resize] *)
  resize_pixels : Image Pix -> Z * Z -> result Pix;
  (** the copy of [crop] *)
  crop_pixels : Image Pix -> box -> result Pix;
  (** the encoder chosen by the extension of the file name: [None] for an
      unknown extension, else the bytes written and whether the encoder
      finished ([true]) or raised after writing them ([false]) *)
  save_handler : string -> Image Pix -> option (list byte * bool)
}.

Section Download.

Context {collab : Collaborators}.

(** The calls that leave the process, in the order they are made. *)
Inductive Event : Type :=
| EvGet (u : string)
| EvOpen (bytes : list byte)
| EvConvert (to : string)
| EvResize (sz : Z * Z)
| EvCrop (b : box)
| EvMakedirs (name : string)
| EvSave (image : Image Pix) (name : string).

Record World : Type := {
  cwd : Fs.loc;
  fs : Fs.tree;
  log : list Event
}.

(** Computations that read and write the world and may raise. *)
Definition M (A : Type) : Type := World -> result A * World.

#[global] Instance M_bind : MBind M := fun A B k c w =>
  match c w with
  | (Ok a, w') => k a w'
  | (Raise e, w') => (Raise e, w')
  end.
#[global] Instance M_ret : MRet M := fun A a w => (Ok a, w).

Definition lift {A : Type} (r : result A) : M A := fun w => (r, w).

Definition emit (e : Event) : M unit := fun w =>
  (Ok tt, {| cwd := cwd w; fs := fs w; log := log w ++ [e] |}).

Definition set_fs (w : World) (t : Fs.tree) : World :=
  {| cwd := cwd w; fs := t; log := log w |}.

(** A call that works on the file system. *)
Definition on_fs {A : Type}
  (f : Fs.loc -> Fs.tree -> result A * Fs.tree) : M A := fun w =>
  let '(r, t) := f (cwd w) (fs w) in (r, set_fs w t).

(** A logged call of a collaborator. *)
Definition call {A : Type} (e : Event) (r : result A) : M A :=
  _ ← emit e; lift r.

(** What Pillow's [convert], [resize] and [crop] return. *)

(** [image.convert(to)]: same size, new mode. *)
Definition pil_convert (image : Image Pix) (to : string)
  : result (Image Pix) :=
  px ← convert_pixels image to;
  Ok {| mode := to; size := size image; im := px |}.

(** [image.resize(sz)]: Pillow refuses a width or height below 1. *)
Definition pil_resize (image : Image Pix) (sz : Z * Z)
  : result (Image Pix) :=
  if (fst sz <? 1) || (snd sz <? 1) then Raise ValueError
  else
    px ← resize_pixels image sz;
    Ok {| mode := mode image; size := sz; im := px |}.

(** [image.crop(b)]: Pillow refuses [right < left] and [lower < upper];
    the result has size [(right - left, lower - upper)], also when the
    box reaches outside the image. *)
Definition pil_crop (image : Image Pix) (b : box) : result (Image Pix) :=
  let '(x0, y0, x1, y1) := b in
  if (x1 <? x0) || (y1 <? y0) then Raise ValueError
  else
    px ← crop_pixels image b;
    Ok {| mode := mode image; size := (x1 - x0, y1 - y0); im := px |}.

(** [requests.get(url)] *)
Definition requests_get (u : string) : M Response :=
  call (EvGet u) (http_get u).

(** [Image.open(io.BytesIO(bytes))] *)
Definition Image_open (bytes : list byte) : M (Image Pix) :=
  call (EvOpen bytes) (decode_header bytes).

Definition Image_convert (image : Image Pix) (to : string) : M (Image Pix) :=
  call (EvConvert to) (pil_convert image to).

Definition Image_resize (image : Image Pix) (sz : Z * Z) : M (Image Pix) :=
  call (EvResize sz) (pil_resize image sz).

Definition Image_crop (image : Image Pix) (b : box) : M (Image Pix) :=
  call (EvCrop b) (pil_crop image b).

(** [os.makedirs(name, exist_ok=True)] *)
Definition os_makedirs (name : string) : M unit :=
  _ ← emit (EvMakedirs name);
  on_fs (fun c t => Fs.makedirs c name t).

(** [image.save(name)]: the format comes from the extension; the file
    is opened with ["w+b"], the encoder writes to it, and a file that
    this call created is removed again when the encoder raises. *)
Definition save_file (image : Image Pix) (name : string)
  (c : Fs.loc) (t : Fs.tree) : result unit * Fs.tree :=
  match save_handler name image with
  | None => (Raise ValueError, t)
  | Some (bytes, finished) =>
      let created := negb (Fs.path_exists c name t) in
      match Fs.open_target c name t with
      | Raise e => (Raise e, t)
      | Ok p =>
          if finished then (Ok tt, <[p := Fs.File bytes]> t)
          else if created then (Raise OSError, delete p t)
          else (Raise OSError, <[p := Fs.File bytes]> t)
      end
  end.

Definition Image_save (image : Image Pix) (name : string) : M unit :=
  _ ← emit (EvSave image name);
  on_fs (save_file image name).

(** [try: ... except Exception: return False] *)
Definition try_except (body : M bool) : World -> bool * World := fun w =>
  match body w with
  | (Ok b, w') => (b, w')
  | (Raise _, w') => (false, w')
  end.

(** ** [ImageDownloader] *)

Record ImageDownloader : Type := { crop_resize : Z }.

(** The body of the [try] block of [download]. *)
Definition download_body (self : ImageDownloader) (u save_to : string)
  : M bool :=
  response ← requests_get u;
  if negb (status_code response =? 200)
     || PyStr.contains "removed.png" (url response)
  then mret false
  else
    opened ← Image_open (content response);
    pil_image ← Image_convert opened "RGB";
    pil_image ←
      (if crop_resize self >? 0 then
         let '(image_width, image_height) := size pil_image in
         '(new_width, new_height) ←
           lift (new_size (crop_resize self) image_width image_height);
         b ← lift (crop_box (crop_resize self) new_width new_height);
         resized ← Image_resize pil_image (new_width, new_height);
         Image_crop resized b
       else mret pil_image);
    _ ← os_makedirs (PyStr.dirname save_to);
    _ ← Image_save pil_image save_to;
    mret true.

Definition download (self : ImageDownloader) (u save_to : string)
  : World -> bool * World :=
  try_except (download_body self u save_to).

End Download.

(** ** Notions used to state the properties of [download] *)

Section DownloadSpec.

Context {collab : Collaborators}.

Definition add_log (w : World) (evs : list Event) : World :=
  {| cwd := cwd w; fs := fs w; log := log w ++ evs |}.


(** First phase of [download]: fetch, validate, decode, transform.
    [None] stands for the early [return False]. *)
Definition fetch_image (self : ImageDownloader) (u : string)
  : M (option (Image Pix)) :=
  response ← requests_get u;
  if negb (status_code response =? 200)
     || PyStr.contains "removed.png" (url response)
  then mret None
  else
    opened ← Image_open (content response);
    pil_image ← Image_convert opened "RGB";
    pil_image ←
      (if crop_resize self >? 0 then
         let '(image_width, image_height) := size pil_image in
         '(new_width, new_height) ←
           lift (new_size (crop_resize self) image_width image_height);
         b ← lift (crop_box (crop_resize self) new_width new_height);
         resized ← Image_resize pil_image (new_width, new_height);
         Image_crop resized b
       else mret pil_image);
    mret (Some pil_image).

(** Second phase: create the directory and write the file. *)
Definition store_image (save_to : string) (o : option (Image Pix)) : M bool :=
  match o with
  | None => mret false
  | Some pil_image =>
      _ ← os_makedirs (PyStr.dirname save_to);
      _ ← Image_save pil_image save_to;
      mret true
  end.

(** A computation that reads nothing of the world and only logs. *)
Definition blind {A} (c : M A) : Prop :=
  ∃ r evs, ∀ w, c w = (r, add_log w evs).


(** ** Successful runs, step by step *)

(** The optional resize and crop of a converted image, with the calls
    made. *)
Inductive transform_ok (self : ImageDownloader)
  : Image Pix → Image Pix → list Event → Prop :=
| transform_off image :
    crop_resize self <= 0 →
    transform_ok self image image []
| transform_on image new_width new_height b resized cropped :
    0 < crop_resize self →
    new_size (crop_resize self) (fst (size image)) (snd (size image))
      = Ok (new_width, new_height) →
    crop_box (crop_resize self) new_width new_height = Ok b →
    pil_resize image (new_width, new_height) = Ok resized →
    pil_crop resized b = Ok cropped →
    transform_ok self image cropped [EvResize (new_width, new_height); EvCrop b].

(** Every step of [download] completes without error. *)
Inductive completes (self : ImageDownloader) (u save_to : string)
  (w w' : World) : Prop :=
| Completes response opened rgb image evs t1 p bytes :
    http_get u = Ok response →
    status_code response = 200 →
    PyStr.contains "removed.png" (url response) = false →
    decode_header (content response) = Ok opened →
    pil_convert opened "RGB" = Ok rgb →
    transform_ok self rgb image evs →
    Fs.makedirs (cwd w) (PyStr.dirname save_to) (fs w) = (Ok tt, t1) →
    save_handler save_to image = Some (bytes, true) →
    Fs.open_target (cwd w) save_to t1 = Ok p →
    w' = {| cwd := cwd w;
            fs := <[p := Fs.File bytes]> t1;
            log := log w
                   ++ [EvGet u; EvOpen (content response); EvConvert "RGB"]
                   ++ evs
                   ++ [EvMakedirs (PyStr.dirname save_to);
                       EvSave image save_to] |} →
    completes self u save_to w w'.

(** The second phase on the tree alone: does it succeed, and the tree it
    leaves. *)
Definition store_tree (image : Image Pix) (save_to : string)
  (c : Fs.loc) (t : Fs.tree) : bool * Fs.tree :=
  match Fs.makedirs c (PyStr.dirname save_to) t with
  | (Ok _, t1) =>
      let '(r, t2) := save_file image save_to c t1 in (is_ok r, t2)
  | (Raise _, t1) => (false, t1)
  end.

End DownloadSpec.

(** ** A small world to run [download] in

    A network of four pages and a codec for a toy format: the first two
    bytes of a file are the width and the height of the image, the other
    bytes are its pixels. *)
Module Demo.

Definition cat_url : string := "https://i.redd.it/cat.png".
Definition gone_url : string := "https://i.imgur.com/gone.png".
Definition lost_url : string := "https://i.redd.it/lost.png".
Definition junk_url : string := "https://i.redd.it/junk.png".

Definition get (u : string) : result Response :=
  if String.eqb u cat_url then
    Ok {| status_code := 200; url := u; content := [x03; x02; xff] |}
  else if String.eqb u gone_url then
    Ok {| status_code := 200; url := "https://i.imgur.com/removed.png";
          content := [x01; x01; x00] |}
  else if String.eqb u lost_url then
    Ok {| status_code := 404; url := u; content := [] |}
  else if String.eqb u junk_url then
    Ok {| status_code := 200; url := u; content := [x3c] |}
  else Raise RequestException.

Definition header (bytes : list byte) : result (Image (list byte)) :=
  match bytes with
  | w :: h :: px =>
      Ok {| mode := "P";
            size := (Z.of_N (Byte.to_N w), Z.of_N (Byte.to_N h));
            im := px |}
  | _ => Raise UnidentifiedImageError
  end.

Definition collaborators : Collaborators := {|
  Pix := list byte;
  http_get := get;
  decode_header := header;
  convert_pixels := fun image _ => Ok (im image);
  resize_pixels := fun image _ => Ok (im image);
  crop_pixels := fun image _ => Ok (im image);
  save_handler := fun name image =>
    if PyStr.contains ".png" name then Some (im image, true) else None
|}.

(** The working directory [/home] and nothing else. *)
Definition world : @World collaborators := {|
  cwd := ["home"%string];
  fs := {[ ["home"%string] := Fs.Dir ]};
  log := []
|}.

End Demo.

(** ** The constructor

<<
    def __init__(self, crop_resize: int = 512):
        self.crop_resize = crop_resize
>>
    [None] stands for a call that leaves the argument out. *)
Definition __init__ (crop_resize : option Z) : ImageDownloader :=
  {| crop_resize := default 512 crop_resize |}.

(** ** A page with an image of no pixel

    The codec of the small world on a network whose every page is an
    image of width 0 and height 2. *)
Module Blank.

Definition get (u : string) : result Response :=
  Ok {| status_code := 200; url := u; content := [x00; x02] |}.

Definition collaborators : Collaborators := {|
  Pix := list byte;
  http_get := get;
  decode_header := Demo.header;
  convert_pixels := fun image _ => Ok (im image);
  resize_pixels := fun image _ => Ok (im image);
  crop_pixels := fun image _ => Ok (im image);
  save_handler := fun name image =>
    if PyStr.contains ".png" name then Some (im image, true) else None
|}.

Definition world : @World collaborators := {|
  cwd := ["home"%string];
  fs := {[ ["home"%string] := Fs.Dir ]};
  log := []
|}.

End Blank.

(** * Properties *)

(** ** The file system *)

Module FsFacts.
Import Fs.

Lemma is_dir_exists (t : tree) p : is_dir t p = true → exists_at t p = true.
Proof.
  destruct p as [|x p]; [done|]. simpl.
  by destruct (t !! (x :: p)) as [[]|].
Qed.

Lemma exists_at_None (t : tree) p : exists_at t p = false → t !! p = None.
Proof.
  destruct p as [|x p]; [done|]. simpl.
  by destruct (t !! (x :: p)).
Qed.

Lemma is_dir_mono (t t' : tree) p : t ⊆ t' → is_dir t p = true → is_dir t' p = true.
Proof.
  intros Hsub. destruct p as [|x p]; [done|]. simpl.
  destruct (t !! (x :: p)) as [[]|] eqn:E; try done.
  by rewrite (lookup_weaken _ _ _ _ E Hsub).
Qed.

Lemma exists_at_mono (t t' : tree) p :
  t ⊆ t' → exists_at t p = true → exists_at t' p = true.
Proof.
  intros Hsub. destruct p as [|x p]; [done|]. simpl.
  destruct (t !! (x :: p)) as [n|] eqn:E; try done.
  by rewrite (lookup_weaken _ _ _ _ E Hsub).
Qed.

Lemma snoc_not_nil (cur : loc) c : cur ++ [c] ≠ [].
Proof. by destruct cur. Qed.

Lemma is_dir_insert_Dir (t : tree) p : p ≠ [] -> is_dir (<[p := Dir]> t) p = true.
Proof. destruct p; [done|]. intros _. simpl. by rewrite lookup_insert_eq. Qed.

(** [makedirs_from] only adds nodes. *)
Lemma makedirs_from_grows comps : ∀ (t : tree) cur r t',
  makedirs_from t cur comps = (r, t') → t ⊆ t'.
Proof.
  induction comps as [|c rest IH]; intros t cur r t'; simpl.
  - destruct (is_dir t cur); intros [= _ <-]; done.
  - destruct (is_dir t cur); simpl; [|intros [= _ <-]; done].
    destruct (PyStr.is_empty c || (c =? dot)%string); [by apply IH|].
    destruct (c =? dotdot)%string; [by apply IH|].
    destruct (exists_at t (cur ++ [c])) eqn:E; [by apply IH|].
    intros Hrun. apply IH in Hrun.
    etrans; [|exact Hrun].
    apply insert_subseteq. by apply exists_at_None.
Qed.

(** Running [makedirs_from] again changes nothing and ends the same way. *)
Lemma makedirs_from_idem comps : ∀ (t : tree) cur r t',
  makedirs_from t cur comps = (r, t') → makedirs_from t' cur comps = (r, t').
Proof.
  induction comps as [|c rest IH]; intros t cur r t'; simpl.
  - destruct (is_dir t cur) eqn:E; intros [= <- <-]; by rewrite E.
  - destruct (is_dir t cur) eqn:Ed; simpl; [|intros [= <- <-]; by rewrite Ed].
    destruct (PyStr.is_empty c || (c =? dot)%string) eqn:E1.
    { intros Hrun. pose proof (makedirs_from_grows _ _ _ _ _ Hrun) as Hsub.
      rewrite (is_dir_mono t t' cur Hsub Ed). simpl. eauto. }
    destruct (c =? dotdot)%string eqn:E2.
    { intros Hrun. pose proof (makedirs_from_grows _ _ _ _ _ Hrun) as Hsub.
      rewrite (is_dir_mono t t' cur Hsub Ed). simpl. eauto. }
    destruct (exists_at t (cur ++ [c])) eqn:E.
    + intros Hrun. pose proof (makedirs_from_grows _ _ _ _ _ Hrun) as Hsub.
      rewrite (is_dir_mono t t' cur Hsub Ed),
        (exists_at_mono t t' _ Hsub E). simpl. eauto.
    + intros Hrun. pose proof (makedirs_from_grows _ _ _ _ _ Hrun) as Hsub.
      assert (t ⊆ <[cur ++ [c] := Dir]> t) as Hins
        by (apply insert_subseteq; by apply exists_at_None).
      rewrite (is_dir_mono t t' cur); [|by etrans|done]. simpl.
      rewrite (exists_at_mono (<[cur ++ [c] := Dir]> t) t'); eauto.
      apply is_dir_exists, is_dir_insert_Dir, snoc_not_nil.
Qed.

Lemma same_dirs_insert_file (t : tree) p b :
  is_dir t p = false → same_dirs t (<[p := File b]> t).
Proof.
  intros Hp q. destruct q as [|x q]; [done|]. simpl.
  destruct (decide (p = x :: q)) as [->|Hne].
  - rewrite lookup_insert_eq. simpl in Hp. by destruct (t !! (x :: q)) as [[]|].
  - by rewrite lookup_insert_ne.
Qed.

Lemma resolve_same_dirs comps : ∀ (t t2 : tree) cur p,
  same_dirs t t2 → resolve t cur comps = Ok p → resolve t2 cur comps = Ok p.
Proof.
  induction comps as [|c rest IH]; intros t t2 cur p Hs; simpl; [done|].
  rewrite <- (Hs cur). destruct (is_dir t cur); simpl; [|done].
  destruct (PyStr.is_empty c || (c =? dot)%string); [by apply IH|].
  destruct (c =? dotdot)%string; by apply IH.
Qed.

Lemma resolve_app l1 : ∀ (t : tree) cur l2,
  resolve t cur (l1 ++ l2) = (d ← resolve t cur l1; resolve t d l2).
Proof.
  induction l1 as [|c rest IH]; intros t cur l2; simpl; [done|].
  destruct (is_dir t cur); simpl; [|done].
  destruct (PyStr.is_empty c || (c =? dot)%string); [by apply IH|].
  destruct (c =? dotdot)%string; by apply IH.
Qed.

Lemma split_sep_not_nil p : PyStr.split_sep p ≠ [].
Proof.
  induction p as [|c r IH]; simpl; [done|].
  destruct (PyStr.is_sep c); [done|]. by destruct (PyStr.split_sep r).
Qed.

(** What [open_target] returns, spelled out. *)
Lemma open_target_Ok (c0 : loc) (name : string) (t : tree) (p : loc) :
  open_target c0 name t = Ok p →
  PyStr.is_empty name = false ∧
  is_dir t p = false ∧ p ≠ [] ∧
  resolve t (start c0 name) (PyStr.split_sep name) = Ok p.
Proof.
  unfold open_target. destruct (PyStr.is_empty name) eqn:En; [done|].
  pose proof (split_sep_not_nil name) as Hnn.
  destruct (resolve t (start c0 name) (removelast (PyStr.split_sep name)))
    as [d|e] eqn:Hr; simpl; [|done].
  destruct (is_dir t d) eqn:Hd; simpl; [|done].
  set (c := List.last (PyStr.split_sep name) EmptyString).
  destruct (PyStr.is_empty c || (c =? dot)%string || (c =? dotdot)%string)
    eqn:Hc; [done|].
  destruct (is_dir t (d ++ [c])) eqn:Hdc; [done|].
  intros [= <-]. repeat split; [done|apply snoc_not_nil|].
  rewrite (app_removelast_last EmptyString Hnn), resolve_app, Hr. simpl.
  rewrite Hd. simpl. fold c.
  apply orb_false_iff in Hc as [Hc ->]. by rewrite Hc.
Qed.

Lemma open_target_same_dirs (c0 : loc) (name : string) (t t2 : tree) (p : loc) :
  same_dirs t t2 →
  open_target c0 name t = Ok p → open_target c0 name t2 = Ok p.
Proof.
  intros Hs. unfold open_target.
  destruct (PyStr.is_empty name); [done|].
  destruct (resolve t (start c0 name) (removelast (PyStr.split_sep name)))
    as [d|e] eqn:Hr; simpl; [|done].
  rewrite (resolve_same_dirs _ _ _ _ _ Hs Hr). simpl.
  rewrite <- !Hs. by destruct (is_dir t d).
Qed.

(** [open(name, "rb").read()]: the bytes of the file at [name]. *)
Lemma file_at_insert (c0 : loc) (name : string) (t : tree) (p : loc) b :
  open_target c0 name t = Ok p →
  file_at c0 name (<[p := File b]> t) = Some b.
Proof.
  intros Ho. destruct (open_target_Ok _ _ _ _ Ho) as (En & Hp & _ & Hr).
  unfold file_at. rewrite En.
  rewrite (resolve_same_dirs _ _ _ _ _ (same_dirs_insert_file t p b Hp) Hr).
  by rewrite lookup_insert_eq.
Qed.

Lemma path_exists_open_target (c0 : loc) (name : string) (t : tree) (p : loc) :
  open_target c0 name t = Ok p →
  path_exists c0 name t = exists_at t p.
Proof.
  intros Ho. destruct (open_target_Ok _ _ _ _ Ho) as (En & Hp & _ & Hr).
  unfold path_exists. by rewrite En, Hr.
Qed.

(** A run of [makedirs_from] that had nothing to create has nothing to
    create in a tree with the same directories and no fewer nodes. *)
Lemma makedirs_from_same_dirs comps : ∀ (t t2 : tree) cur,
  same_dirs t t2 →
  (∀ q, exists_at t q = true → exists_at t2 q = true) →
  makedirs_from t cur comps = (Ok tt, t) →
  makedirs_from t2 cur comps = (Ok tt, t2).
Proof.
  induction comps as [|c rest IH]; intros t t2 cur Hs He; simpl.
  - rewrite <- (Hs cur). by destruct (is_dir t cur).
  - rewrite <- (Hs cur). destruct (is_dir t cur); simpl; [|done].
    destruct (PyStr.is_empty c || (c =? dot)%string); [by apply IH|].
    destruct (c =? dotdot)%string; [by apply IH|].
    destruct (exists_at t (cur ++ [c])) eqn:E.
    + rewrite (He _ E). by apply IH.
    + intros Hrun. apply makedirs_from_grows in Hrun.
      apply exists_at_None in E.
      pose proof (lookup_weaken _ _ (cur ++ [c]) Dir
                    (lookup_insert_eq _ _ _) Hrun) as Hl.
      congruence.
Qed.

End FsFacts.

Import FsFacts.

Lemma Fs_makedirs_idem (c : Fs.loc) (name : string) (t t' : Fs.tree) r :
  Fs.makedirs c name t = (r, t') → Fs.makedirs c name t' = (r, t').
Proof.
  unfold Fs.makedirs. destruct (PyStr.is_empty name).
  - by intros [= <- <-].
  - apply makedirs_from_idem.
Qed.

Lemma Fs_makedirs_same_dirs (c : Fs.loc) (name : string) (t t2 : Fs.tree) :
  Fs.same_dirs t t2 →
  (∀ q, Fs.exists_at t q = true → Fs.exists_at t2 q = true) →
  Fs.makedirs c name t = (Ok tt, t) → Fs.makedirs c name t2 = (Ok tt, t2).
Proof.
  unfold Fs.makedirs. destruct (PyStr.is_empty name); [done|].
  apply makedirs_from_same_dirs.
Qed.

Lemma exists_at_insert (t : Fs.tree) p n q :
  Fs.exists_at t q = true → Fs.exists_at (<[p := n]> t) q = true.
Proof.
  destruct q as [|x q]; [done|]. simpl.
  destruct (decide (p = x :: q)) as [->|Hne].
  - by rewrite lookup_insert_eq.
  - by rewrite lookup_insert_ne.
Qed.

(** *** What [makedirs] and [save] leave in place *)

Module FsMore.
Import Fs.

Lemma resolve_grows comps : ∀ (t t' : tree) cur p,
  t ⊆ t' → resolve t cur comps = Ok p → resolve t' cur comps = Ok p.
Proof.
  induction comps as [|c rest IH]; intros t t' cur p Hsub; simpl; [done|].
  destruct (is_dir t cur) eqn:Hd; simpl; [|done].
  rewrite (is_dir_mono _ _ _ Hsub Hd). simpl.
  destruct (PyStr.is_empty c || String.eqb c dot); [by apply IH|].
  destruct (String.eqb c dotdot); by apply IH.
Qed.


End FsMore.

Import FsMore.

Lemma Fs_makedirs_grows (c : Fs.loc) (name : string) (t t' : Fs.tree) r :
  Fs.makedirs c name t = (r, t') → t ⊆ t'.
Proof.
  unfold Fs.makedirs. destruct (PyStr.is_empty name).
  - by intros [= <- <-].
  - apply makedirs_from_grows.
Qed.


(** A path that ends in a separator has an empty last component. *)
Lemma split_sep_trailing (d : string) :
  ∃ l, PyStr.split_sep (d ++ "/") = l ++ [EmptyString] ∧ l ≠ [].
Proof.
  induction d as [|c d (l & IH & Hl)]; simpl.
  - by exists [EmptyString].
  - rewrite IH. destruct (PyStr.is_sep c).
    + by exists (EmptyString :: l).
    + destruct l as [|x xs]; [done|]. by exists (String c x :: xs).
Qed.

(** Such a path cannot be opened for writing. *)
Lemma open_target_trailing (c : Fs.loc) (d : string) (t : Fs.tree) :
  ∃ e, Fs.open_target c (d ++ "/") t = Raise e.
Proof.
  unfold Fs.open_target.
  destruct (PyStr.is_empty (d ++ "/")); [by eexists|].
  destruct (split_sep_trailing d) as (l & -> & _).
  rewrite removelast_last, last_last.
  destruct (Fs.resolve t _ l) as [p|e]; simpl; [|by eexists].
  destruct (Fs.is_dir t p); simpl; by eexists.
Qed.

(** ** Strings and paths *)

Module PyStrFacts.
Import PyStr.

Lemma startswith_app n post : startswith n (n ++ post)%string = true.
Proof.
  induction n as [|a n IH]; simpl; [done|].
  by rewrite Ascii.eqb_refl, IH.
Qed.

Lemma startswith_inv n : ∀ h,
  startswith n h = true → ∃ post, h = (n ++ post)%string.
Proof.
  induction n as [|a n IH]; intros h; simpl.
  - intros _. by exists h.
  - destruct h as [|b h]; [done|].
    intros [Hab Hn]%andb_true_iff. apply Ascii.eqb_eq in Hab as ->.
    destruct (IH _ Hn) as [post ->]. by exists post.
Qed.

(** [contains] is the substring test. *)
Lemma contains_spec n h :
  contains n h = true ↔ ∃ pre post, h = (pre ++ n ++ post)%string.
Proof.
  split.
  - induction h as [|b h IH]; simpl.
    + rewrite orb_false_r. intros [post ->]%startswith_inv.
      by exists EmptyString, post.
    + intros [Hs|Hc]%orb_true_iff.
      * apply startswith_inv in Hs as [post ->]. by exists EmptyString, post.
      * destruct (IH Hc) as (pre & post & ->). by exists (String b pre), post.
  - intros (pre & post & ->).
    induction pre as [|b pre IH]; simpl.
    + destruct (n ++ post)%string eqn:E; simpl.
      * rewrite <- E, startswith_app. done.
      * rewrite <- E, startswith_app. done.
    + by rewrite IH, orb_true_r.
Qed.

Lemma upto_last_sep_no_sep p : has_sep p = false → upto_last_sep p = EmptyString.
Proof.
  induction p as [|c r IH]; simpl; [done|].
  intros [Hc Hr]%orb_false_iff. by rewrite Hr, Hc.
Qed.

(** A bare file name has the empty directory part. *)
Lemma dirname_bare p : has_sep p = false → dirname p = EmptyString.
Proof. intros Hp. unfold dirname. by rewrite (upto_last_sep_no_sep _ Hp). Qed.

Lemma upto_last_sep_empty p : upto_last_sep p = EmptyString → has_sep p = false.
Proof.
  induction p as [|c r IH]; simpl; [done|].
  destruct (has_sep r); [done|]. by destruct (is_sep c).
Qed.

Lemma rstrip_sep_empty s : rstrip_sep s = EmptyString → all_sep s = true.
Proof.
  induction s as [|c r IH]; simpl; [done|].
  destruct (rstrip_sep r); [|done].
  destruct (is_sep c); [|done]. intros _. by apply IH.
Qed.

Lemma dirname_empty_iff p : dirname p = EmptyString ↔ has_sep p = false.
Proof.
  split; [|apply dirname_bare].
  unfold dirname. intros Hd. apply upto_last_sep_empty.
  destruct (negb (is_empty (upto_last_sep p))
            && negb (all_sep (upto_last_sep p))) eqn:Hc; [|done].
  apply rstrip_sep_empty in Hd. rewrite Hd in Hc.
  by rewrite andb_false_r in Hc.
Qed.
End PyStrFacts.

(** ** Floats *)

Module PyFloatFacts.
Import PyFloat.
Local Open Scope Q_scope.

(** *** Powers of two *)

Lemma pow2_pos (z : Z) : 0 < 2 ^ z.
Proof. apply Qpower_0_lt. reflexivity. Qed.

Lemma pow2_add (a b : Z) : 2 ^ (a + b) == 2 ^ a * 2 ^ b.
Proof. apply Qpower_plus. discriminate. Qed.

Lemma pow2_le (a b : Z) : (a <= b)%Z -> 2 ^ a <= 2 ^ b.
Proof. intros Hab. apply Qpower_le_compat_l; [exact Hab|discriminate]. Qed.

Lemma pow2_lt (a b : Z) : (a < b)%Z -> 2 ^ a < 2 ^ b.
Proof. intros Hab. apply Qpower_lt_compat_l; [exact Hab|reflexivity]. Qed.

Lemma pow2_lt_inv (a b : Z) : 2 ^ a < 2 ^ b -> (a < b)%Z.
Proof. intros Hab. apply (Qpower_lt_compat_l_inv 2); [exact Hab|reflexivity]. Qed.

Lemma pow2_inject (n : Z) : (0 <= n)%Z -> inject_Z (2 ^ n) == 2 ^ n.
Proof. intros Hn. apply (Zpower_Qpower 2 n Hn). Qed.

Lemma pow2_succ (a : Z) : 2 ^ (a + 1) == 2 * 2 ^ a.
Proof. rewrite pow2_add. change (2 ^ 1) with 2. ring. Qed.

(** *** The binade of a positive rational *)

Lemma Qilog2_approx (a : Q) :
  0 < a ->
  let k := (Z.log2 (Qnum a) - Z.log2 (Zpos (Qden a)))%Z in
  2 ^ (k - 1) <= a /\ a < 2 ^ (k + 1).
Proof.
  intros Ha k.
  assert (0 < Qnum a)%Z as Hn by (unfold Qlt in Ha; simpl in Ha; lia).
  pose proof (Z.log2_spec (Qnum a) Hn) as [Hn1 Hn2].
  pose proof (Z.log2_spec (Zpos (Qden a)) ltac:(lia)) as [Hd1 Hd2].
  pose proof (Z.log2_nonneg (Qnum a)) as Hln.
  pose proof (Z.log2_nonneg (Zpos (Qden a))) as Hld.
  subst k.
  set (ln := Z.log2 (Qnum a)) in *. set (ld := Z.log2 (Zpos (Qden a))) in *.
  assert (a == inject_Z (Qnum a) / inject_Z (Zpos (Qden a))) as Hnd
    by (destruct a as [n d]; simpl; apply Qmake_Qdiv).
  assert (0 < inject_Z (Zpos (Qden a))) as Hdpos by reflexivity.
  assert (inject_Z (2 ^ ln)%Z <= inject_Z (Qnum a)) as Qn1
    by (rewrite <- Zle_Qle; lia).
  assert (inject_Z (Qnum a) < inject_Z (2 ^ (ln + 1))%Z) as Qn2
    by (rewrite <- Zlt_Qlt; lia).
  assert (inject_Z (2 ^ ld)%Z <= inject_Z (Zpos (Qden a))) as Qd1
    by (rewrite <- Zle_Qle; lia).
  assert (inject_Z (Zpos (Qden a)) < inject_Z (2 ^ (ld + 1))%Z) as Qd2
    by (rewrite <- Zlt_Qlt; lia).
  rewrite pow2_inject in Qn1, Qn2, Qd1, Qd2 by lia.
  rewrite pow2_succ in Qn2, Qd2.
  pose proof (pow2_pos ln) as Pn. pose proof (pow2_pos ld) as Pd.
  pose proof (pow2_pos (ln - ld - 1)) as Pk.
  assert (2 ^ (ln - ld - 1) * (2 * 2 ^ ld) == 2 ^ ln) as Hk.
  { rewrite <- pow2_succ, <- pow2_add. replace (ln - ld - 1 + (ld + 1))%Z with ln by lia.
    reflexivity. }
  assert (2 ^ (ln - ld + 1) * 2 ^ ld == 2 * 2 ^ ln) as Hk2.
  { rewrite <- pow2_succ, <- pow2_add. replace (ln - ld + 1 + ld)%Z with (ln + 1)%Z by lia.
    reflexivity. }
  pose proof (pow2_pos (ln - ld + 1)) as Pk2.
  set (D := inject_Z (Zpos (Qden a))) in *. set (N := inject_Z (Qnum a)) in *.
  assert (a * D == N) as HND' by (rewrite Hnd; field; lra).
  set (Kh := 2 ^ (ln - ld - 1)) in *. set (K2 := 2 ^ (ln - ld + 1)) in *.
  set (PN := 2 ^ ln) in *. set (PD := 2 ^ ld) in *.
  split.
  - apply Qnot_lt_le. intros Hc. nra.
  - apply Qnot_le_lt. intros Hc. nra.
Qed.

Lemma Qilog2_spec (a : Q) :
  0 < a -> 2 ^ Qilog2 a <= a /\ a < 2 ^ (Qilog2 a + 1).
Proof.
  intros Ha. destruct (Qilog2_approx a Ha) as [H1 H2].
  unfold Qilog2.
  set (k := (Z.log2 (Qnum a) - Z.log2 (Zpos (Qden a)))%Z) in *.
  destruct (Qle_bool (2 ^ k) a) eqn:Hle.
  - apply Qle_bool_iff in Hle. split; [exact Hle|exact H2].
  - replace (k - 1 + 1)%Z with k by lia. split; [exact H1|].
    apply Qnot_le_lt. intros Hc. apply Qle_bool_iff in Hc. congruence.
Qed.

(** The binade is determined by its bounds. *)
Lemma Qilog2_unique (a : Q) (k : Z) :
  2 ^ k <= a -> a < 2 ^ (k + 1) -> Qilog2 a = k.
Proof.
  intros H1 H2.
  assert (0 < a) as Ha by (pose proof (pow2_pos k); lra).
  destruct (Qilog2_spec a Ha) as [L1 L2].
  assert (Qilog2 a < k + 1)%Z by (apply pow2_lt_inv; lra).
  assert (k < Qilog2 a + 1)%Z by (apply pow2_lt_inv; lra).
  lia.
Qed.

(** *** Rounding to the nearest integer *)

Lemma Qrne_bounds (x : Q) :
  x - (1 # 2) <= inject_Z (Qrne x) /\ inject_Z (Qrne x) <= x + (1 # 2).
Proof.
  unfold Qrne.
  pose proof (Qfloor_le x) as Hf1. pose proof (Qlt_floor x) as Hf2.
  rewrite inject_Z_plus in Hf2. change (inject_Z 1) with 1 in Hf2.
  destruct (Qcompare (x - inject_Z (Qfloor x)) (1 # 2)) eqn:Hc.
  - apply Qeq_alt in Hc.
    destruct (Z.even (Qfloor x)); [|rewrite inject_Z_plus; change (inject_Z 1) with 1];
      lra.
  - apply Qlt_alt in Hc. lra.
  - apply Qgt_alt in Hc. rewrite inject_Z_plus. change (inject_Z 1) with 1. lra.
Qed.

Lemma inject_Z_lt_1 (a b : Z) :
  inject_Z a < inject_Z b + 1 -> (a <= b)%Z.
Proof.
  intros Hab. change 1 with (inject_Z 1) in Hab.
  rewrite <- inject_Z_plus, <- Zlt_Qlt in Hab. lia.
Qed.

(** A rational closer than one half to an integer rounds to it. *)
Lemma Qrne_near (x : Q) (n : Z) :
  inject_Z n - (1 # 2) < x -> x < inject_Z n + (1 # 2) -> Qrne x = n.
Proof.
  intros H1 H2. destruct (Qrne_bounds x) as [B1 B2].
  assert (Qrne x <= n)%Z by (apply inject_Z_lt_1; lra).
  assert (n <= Qrne x)%Z by (apply inject_Z_lt_1; lra).
  lia.
Qed.

Lemma Qrne_ge (x : Q) (n : Z) :
  inject_Z n - (1 # 2) < x -> (n <= Qrne x)%Z.
Proof.
  intros H1. destruct (Qrne_bounds x) as [B1 B2].
  apply inject_Z_lt_1. lra.
Qed.

Lemma Qrne_inject (x : Q) (n : Z) : x == inject_Z n -> Qrne x = n.
Proof. intros Hx. apply Qrne_near; lra. Qed.

Lemma Qtrunc_bounds_nonneg (x : Q) :
  0 <= x -> (0 <= Qtrunc x)%Z /\ inject_Z (Qtrunc x) <= x.
Proof.
  intros Hx. unfold Qtrunc.
  assert (Qle_bool 0 x = true) as -> by (by apply Qle_bool_iff).
  split; [|apply Qfloor_le].
  change 0%Z with (Qfloor 0). by apply Qfloor_resp_le.
Qed.

(** *** Rounding to binary64 *)

(** In the normal range, [round_pos] returns the multiple of the unit in
    the last place that is nearest to [a]. *)
Lemma round_pos_normal (s : bool) (a : Q) (L : Z) :
  2 ^ L <= a -> a < 2 ^ (L + 1) -> (-1022 <= L <= 1022)%Z ->
  exists m e,
    round_pos s a = S754_finite s m e
    /\ mag m e == inject_Z (Qrne (a / 2 ^ (L - 52))) * 2 ^ (L - 52).
Proof.
  intros H1 H2 HL. unfold round_pos.
  rewrite (Qilog2_unique a L H1 H2).
  unfold emin, prec, emax.
  replace (Z.max (L - (53 - 1)) (3 - 1024 - 53)) with (L - 52)%Z by lia.
  set (e := (L - 52)%Z).
  pose proof (pow2_pos e) as Pe.
  assert (2 ^ L == 2 ^ 52 * 2 ^ e) as HLe.
  { rewrite <- pow2_add. unfold e. replace (52 + (L - 52))%Z with L by lia.
    reflexivity. }
  assert (2 ^ (L + 1) == 2 ^ 53 * 2 ^ e) as HLe1.
  { rewrite <- pow2_add. unfold e. replace (53 + (L - 52))%Z with (L + 1)%Z by lia.
    reflexivity. }
  assert (a / 2 ^ e * 2 ^ e == a) as Hy by (field; lra).
  set (y := a / 2 ^ e) in *.
  assert (2 ^ 52 <= y) as Hy1.
  { apply Qnot_lt_le. intros Hc.
    assert (y * 2 ^ e < 2 ^ 52 * 2 ^ e) by (apply Qmult_lt_compat_r; lra). lra. }
  assert (y < 2 ^ 53) as Hy2.
  { apply Qnot_le_lt. intros Hc.
    assert (2 ^ 53 * 2 ^ e <= y * 2 ^ e) by (apply Qmult_le_compat_r; lra). lra. }
  destruct (Qrne_bounds y) as [B1 B2].
  assert (2 ^ 52 <= Qrne y)%Z as N1.
  { apply Qrne_ge. change (inject_Z (2 ^ 52)) with (2 ^ 52)%Q. lra. }
  assert (Qrne y <= 2 ^ 53)%Z as N2.
  { apply inject_Z_lt_1. change (inject_Z (2 ^ 53)) with (2 ^ 53)%Q. lra. }
  destruct (Qrne y) as [|p|p] eqn:Hn; [lia| |lia].
  destruct (Z.pos p =? 2 ^ 53)%Z eqn:Hp.
  - apply Z.eqb_eq in Hp.
    assert ((e + 1 <=? 1024 - 53)%Z = true) as -> by (unfold e; lia).
    eexists _, _. split; [reflexivity|].
    unfold mag. rewrite Hp, pow2_succ.
    change (inject_Z (Z.pos (Z.to_pos (2 ^ (53 - 1))))) with (2 ^ 52)%Q.
    change (inject_Z (2 ^ 53)) with (2 ^ 53)%Q.
    change (2 ^ 53)%Q with (2 * 2 ^ 52)%Q. ring.
  - assert ((e <=? 1024 - 53)%Z = true) as -> by (unfold e; lia).
    eexists _, _. split; [reflexivity|]. reflexivity.
Qed.

Lemma Qilog2_range (a : Q) (lo hi : Z) :
  2 ^ lo <= a -> a < 2 ^ hi -> (lo <= Qilog2 a < hi)%Z.
Proof.
  intros H1 H2.
  assert (0 < a) as Ha by (pose proof (pow2_pos lo); lra).
  destruct (Qilog2_spec a Ha) as [L1 L2].
  split.
  - assert (lo < Qilog2 a + 1)%Z by (apply pow2_lt_inv; lra). lia.
  - apply pow2_lt_inv. lra.
Qed.

(** The relative error of a rounding in the normal range is at most
    [u]. *)
Lemma round_pos_rel (s : bool) (a : Q) :
  2 ^ (-1022) <= a -> a < 2 ^ 1023 ->
  exists m e,
    round_pos s a = S754_finite s m e
    /\ a * (1 - u) <= mag m e /\ mag m e <= a * (1 + u).
Proof.
  intros Hlo Hhi.
  assert (0 < a) as Ha by (pose proof (pow2_pos (-1022)); lra).
  destruct (Qilog2_spec a Ha) as [L1 L2].
  pose proof (Qilog2_range a _ _ Hlo Hhi) as HL.
  set (L := Qilog2 a) in *.
  destruct (round_pos_normal s a L L1 L2 ltac:(lia)) as (m & e & Hr & Hv).
  exists m, e. split; [exact Hr|].
  pose proof (pow2_pos (L - 52)) as Pe.
  assert (2 ^ L == 2 ^ 52 * 2 ^ (L - 52)) as HLe.
  { rewrite <- pow2_add. replace (52 + (L - 52))%Z with L by lia. reflexivity. }
  assert (a / 2 ^ (L - 52) * 2 ^ (L - 52) == a) as Hy by (field; lra).
  destruct (Qrne_bounds (a / 2 ^ (L - 52))) as [B1 B2].
  set (y := a / 2 ^ (L - 52)) in *. set (n := inject_Z (Qrne y)) in *.
  set (pe := 2 ^ (L - 52)) in *.
  change (2 ^ 52) with 4503599627370496 in HLe.
  unfold u. rewrite Hv. split; nra.
Qed.

(** A number with a mantissa of at most 53 bits is not changed. *)
Lemma round_pos_dyadic (s : bool) (a : Q) (k j : Z) :
  2 ^ (-1022) <= a -> a < 2 ^ 1023 ->
  (0 < k < 2 ^ 53)%Z -> a == inject_Z k * 2 ^ j ->
  exists m e, round_pos s a = S754_finite s m e /\ mag m e == a.
Proof.
  intros Hlo Hhi Hk Hkj.
  assert (0 < a) as Ha by (pose proof (pow2_pos (-1022)); lra).
  destruct (Qilog2_spec a Ha) as [L1 L2].
  pose proof (Qilog2_range a _ _ Hlo Hhi) as HL.
  set (L := Qilog2 a) in *.
  destruct (round_pos_normal s a L L1 L2 ltac:(lia)) as (m & e & Hr & Hv).
  exists m, e. split; [exact Hr|]. rewrite Hv.
  pose proof (pow2_pos (L - 52)) as Pe. pose proof (pow2_pos j) as Pj.
  assert (L - 52 <= j)%Z as Hj.
  { assert (L < 53 + j)%Z; [|lia]. apply pow2_lt_inv.
    rewrite pow2_add. change (2 ^ 53) with (inject_Z (2 ^ 53)).
    assert (inject_Z k < inject_Z (2 ^ 53)) by (rewrite <- Zlt_Qlt; lia).
    assert (inject_Z k * 2 ^ j < inject_Z (2 ^ 53) * 2 ^ j)
      by (apply Qmult_lt_compat_r; lra).
    lra. }
  assert (2 ^ j == inject_Z (2 ^ (j - (L - 52))) * 2 ^ (L - 52)) as Hjj.
  { rewrite pow2_inject by lia. rewrite <- pow2_add.
    replace (j - (L - 52) + (L - 52))%Z with j by lia. reflexivity. }
  assert (a / 2 ^ (L - 52) == inject_Z (k * 2 ^ (j - (L - 52)))) as Hy.
  { rewrite inject_Z_mult, Hkj, Hjj. field. lra. }
  rewrite (Qrne_inject _ _ Hy), inject_Z_mult, Hkj, Hjj. ring.
Qed.

Lemma round_Q_pos (sz : bool) (a : Q) : 0 < a -> round_Q sz a = round_pos false a.
Proof. intros Ha. unfold round_Q. apply Qgt_alt in Ha. by rewrite Ha. Qed.

Lemma inject_Z_pow2_bounds (z : Z) (lo hi : Z) :
  (0 <= lo)%Z -> (0 <= hi)%Z -> (2 ^ lo <= z < 2 ^ hi)%Z ->
  2 ^ lo <= inject_Z z /\ inject_Z z < 2 ^ hi.
Proof.
  intros Hlo Hhi [H1 H2]. rewrite <- !pow2_inject by lia.
  rewrite <- Zle_Qle, <- Zlt_Qlt. done.
Qed.

(** [float(z)] is exact for a positive [z] below [2^53]. *)
Lemma of_int_exact (z : Z) :
  (0 < z < 2 ^ 53)%Z ->
  exists m e, of_int z = Ok (S754_finite false m e) /\ mag m e == inject_Z z.
Proof.
  intros Hz. unfold of_int.
  destruct (inject_Z_pow2_bounds z 0 53 ltac:(lia) ltac:(lia) ltac:(lia))
    as [Z1 Z2].
  assert (0 < inject_Z z) as Hpos by (pose proof (pow2_pos 0); lra).
  rewrite (round_Q_pos _ _ Hpos).
  destruct (round_pos_dyadic false (inject_Z z) z 0) as (m & e & -> & Hv).
  - apply Qle_trans with (2 ^ 0); [apply pow2_le; lia|exact Z1].
  - apply Qlt_trans with (2 ^ 53); [exact Z2|apply pow2_lt; lia].
  - exact Hz.
  - change (2 ^ 0) with 1. ring.
  - by exists m, e.
Qed.

(** *** The scale factor and the resized edges *)

Lemma Z_Q_bounds (z : Z) (n : Z) :
  (0 < z < 2 ^ n)%Z -> (0 <= n)%Z -> 1 <= inject_Z z /\ inject_Z z <= 2 ^ n - 1.
Proof.
  intros Hz Hn. rewrite <- pow2_inject by lia.
  change 1 with (inject_Z 1). unfold Qminus. rewrite <- inject_Z_opp, <- inject_Z_plus.
  rewrite <- !Zle_Qle. lia.
Qed.

Lemma scale_ok (T m : Z) :
  (0 < T < 2 ^ 53)%Z -> (0 < m < 2 ^ 53)%Z ->
  exists fm scale,
    of_int m = Ok fm
    /\ int_truediv_float T fm = Ok scale
    /\ scale_of T m scale.
Proof.
  intros HT Hm.
  destruct (of_int_exact m Hm) as (mm & em & Hfm & Hvm).
  destruct (of_int_exact T HT) as (mT & eT & HfT & HvT).
  exists (S754_finite false mm em).
  unfold int_truediv_float. rewrite HfT. simpl.
  fold (mag mT eT). fold (mag mm em).
  destruct (Z_Q_bounds T 53 HT ltac:(lia)) as [T1 T2].
  destruct (Z_Q_bounds m 53 Hm ltac:(lia)) as [M1 M2].
  change (2 ^ 53) with 9007199254740992 in T2, M2.
  set (q := mag mT eT / mag mm em).
  assert (q * inject_Z m == inject_Z T) as Hq.
  { unfold q. rewrite HvT, Hvm. field. lra. }
  assert (0 < q) as Hqpos.
  { apply Qnot_le_lt. intros Hc. nra. }
  assert (2 ^ (-53) <= q) as Hq1.
  { change (2 ^ (-53)) with u. unfold u. apply Qnot_lt_le. intros Hc. nra. }
  assert (q < 2 ^ 53) as Hq2.
  { change (2 ^ 53) with 9007199254740992. apply Qnot_le_lt. intros Hc. nra. }
  rewrite (round_Q_pos _ _ Hqpos).
  destruct (round_pos_rel false q) as (ms & es & -> & V1 & V2).
  - apply Qle_trans with (2 ^ (-53)); [apply pow2_le; lia|exact Hq1].
  - apply Qlt_trans with (2 ^ 53); [exact Hq2|apply pow2_lt; lia].
  - eexists. split; [exact Hfm|]. split; [reflexivity|].
    exists ms, es. split; [reflexivity|].
    unfold u in *. split; nra.
Qed.

(** An edge of [d >= m] pixels becomes one of at least [T] pixels, and
    the edge of [m] pixels becomes one of exactly [T]. *)
Lemma edge_ok (T m d : Z) (scale : float) :
  (0 < T < 2 ^ 51)%Z -> (0 < m <= d)%Z -> (d < 2 ^ 53)%Z ->
  scale_of T m scale ->
  exists n,
    (x ← int_mul_float d scale; round x) = Ok n
    /\ (T <= n < 2 ^ 106)%Z /\ (d = m -> n = T)
    /\ (d * T < 2 ^ 52 -> n <= 2 ^ 52)%Z.
Proof.
  intros HT Hm Hd (ms & es & -> & S1 & S2).
  destruct (of_int_exact d ltac:(lia)) as (md & ed & Hfd & Hvd).
  unfold int_mul_float. rewrite Hfd. simpl.
  fold (mag md ed). fold (mag ms es).
  destruct (Z_Q_bounds T 51 HT ltac:(lia)) as [T1 T2].
  destruct (Z_Q_bounds m 53 ltac:(lia) ltac:(lia)) as [M1 M2].
  destruct (Z_Q_bounds d 53 ltac:(lia) ltac:(lia)) as [D1 D2].
  assert (inject_Z m <= inject_Z d) as Hmd by (rewrite <- Zle_Qle; lia).
  change (2 ^ 53) with 9007199254740992 in M2, D2.
  change (2 ^ 51) with 2251799813685248 in T2.
  set (sc := mag ms es) in *. set (p := mag md ed * sc).
  assert (0 < sc) as Hsc.
  { unfold u in S1. apply Qnot_le_lt. intros Hc. nra. }
  assert (sc <= inject_Z T * (1 + u)) as Hsc2.
  { unfold u in *. nra. }
  assert (inject_Z T * (1 - u) <= p) as P1.
  { unfold p. rewrite Hvd. unfold u in *. nra. }
  assert (p <= inject_Z d * (inject_Z T * (1 + u))) as P2.
  { unfold p. rewrite Hvd. unfold u in *. nra. }
  assert (0 < p) as Hp by (unfold u in *; nra).
  rewrite (round_Q_pos _ _ Hp).
  destruct (round_pos_rel false p) as (mp & ep & -> & V1 & V2).
  - apply Qle_trans with (2 ^ (-1)); [apply pow2_le; lia|].
    change (2 ^ (-1)) with (1 # 2). unfold u in *. nra.
  - apply Qlt_trans with (2 ^ 106); [|apply pow2_lt; lia].
    change (2 ^ 106) with (9007199254740992 * 9007199254740992).
    unfold u in *. nra.
  - simpl. fold (mag mp ep). eexists. split; [reflexivity|].
    split; [split|split].
    + apply Qrne_ge. unfold u in *. nra.
    + destruct (Qrne_bounds (mag mp ep)) as [_ B2].
      rewrite Zlt_Qlt. change (inject_Z (2 ^ 106)) with (2 ^ 106).
      change (2 ^ 106) with (9007199254740992 * 9007199254740992).
      unfold u in *. nra.
    + intros ->. apply Qrne_near.
      * unfold u in *. nra.
      * assert (p <= inject_Z T * (1 + u)) as P3.
        { unfold p. rewrite Hvd. exact S2. }
        unfold u in *. nra.
    + intros Hsmall. destruct (Qrne_bounds (mag mp ep)) as [_ B2].
      assert (inject_Z d * inject_Z T <= 4503599627370496 - 1) as X1.
      { rewrite <- inject_Z_mult. change 4503599627370496 with (inject_Z (2 ^ 52)).
        change 1 with (inject_Z 1). unfold Qminus.
        rewrite <- inject_Z_opp, <- inject_Z_plus, <- Zle_Qle. lia. }
      apply inject_Z_lt_1. change (inject_Z (2 ^ 52)) with 4503599627370496.
      unfold u in *. nra.
Qed.

(** *** Halving *)

(** [int(d / 2)] for a natural number [d]: some integer between 0 and
    [d]. *)
Lemma half_bounds (d : Z) :
  (0 <= d < 2 ^ 1000)%Z ->
  exists l, (q ← int_truediv d 2; to_int q) = Ok l /\ (0 <= l <= d)%Z.
Proof.
  intros Hd. unfold int_truediv. simpl.
  destruct (Z.eq_dec d 0%Z) as [->|Hnz].
  { exists 0%Z. split; [reflexivity|lia]. }
  assert (1 <= inject_Z d) as D1.
  { change 1 with (inject_Z 1). rewrite <- Zle_Qle. lia. }
  assert (inject_Z d < 2 ^ 1000) as D2.
  { rewrite <- pow2_inject by lia. rewrite <- Zlt_Qlt. lia. }
  set (q := inject_Z d / inject_Z 2).
  assert (q * 2 == inject_Z d) as Hq by (unfold q; field).
  assert (0 < q) as Hqpos by lra.
  rewrite (round_Q_pos _ _ Hqpos).
  destruct (round_pos_rel false q) as (mq & eq & -> & V1 & V2).
  - apply Qle_trans with (2 ^ (-1)); [apply pow2_le; lia|].
    change (2 ^ (-1)) with (1 # 2). lra.
  - apply Qlt_trans with (2 ^ 1000); [lra|apply pow2_lt; lia].
  - simpl. fold (mag mq eq). eexists. split; [reflexivity|].
    assert (0 <= mag mq eq) as Hnn by (unfold u in *; nra).
    destruct (Qtrunc_bounds_nonneg _ Hnn) as [L1 L2].
    split; [exact L1|]. rewrite Zle_Qle. unfold u in *. nra.
Qed.

(** [int(d / 2)] is the floor of the half for a natural number [d] below
    [2^53]. *)
Lemma half_exact (d : Z) :
  (0 <= d < 2 ^ 53)%Z ->
  (q ← int_truediv d 2; to_int q) = Ok (d / 2)%Z.
Proof.
  intros Hd. unfold int_truediv. simpl.
  destruct (Z.eq_dec d 0%Z) as [->|Hnz]; [reflexivity|].
  assert (1 <= inject_Z d) as D1.
  { change 1 with (inject_Z 1). rewrite <- Zle_Qle. lia. }
  assert (inject_Z d < 2 ^ 53) as D2.
  { rewrite <- pow2_inject by lia. rewrite <- Zlt_Qlt. lia. }
  set (q := inject_Z d / inject_Z 2).
  assert (q * 2 == inject_Z d) as Hq by (unfold q; field).
  assert (0 < q) as Hqpos by lra.
  rewrite (round_Q_pos _ _ Hqpos).
  destruct (round_pos_dyadic false q d (-1)) as (mq & eq & -> & Hv).
  - apply Qle_trans with (2 ^ (-1)); [apply pow2_le; lia|].
    change (2 ^ (-1)) with (1 # 2). lra.
  - apply Qlt_trans with (2 ^ 53); [lra|apply pow2_lt; lia].
  - lia.
  - change (2 ^ (-1)) with (1 # 2). lra.
  - simpl. fold (mag mq eq). f_equal.
    unfold Qtrunc.
    assert (Qle_bool 0 (mag mq eq) = true) as -> by (apply Qle_bool_iff; lra).
    rewrite (Qfloor_comp _ _ Hv). unfold q. symmetry. apply Zdiv_Qdiv.
Qed.

End PyFloatFacts.

Import PyFloatFacts.

(** *** Overflow, exact factors and the distance to the proportional length *)

Module PyFloatMore.
Import PyFloat PyFloatFacts.
Local Open Scope Q_scope.

(** From [2^1024] on, a rational rounds to infinity. *)
Lemma round_pos_overflow (s : bool) (a : Q) :
  2 ^ 1024 <= a -> round_pos s a = S754_infinity s.
Proof.
  intros Ha.
  assert (0 < a) as Hpos by (pose proof (pow2_pos 1024); lra).
  destruct (Qilog2_spec a Hpos) as [L1 L2].
  assert (1024 <= Qilog2 a)%Z as HL.
  { assert (1024 < Qilog2 a + 1)%Z; [|lia]. apply pow2_lt_inv. lra. }
  unfold round_pos. set (L := Qilog2 a) in *.
  unfold emin, prec, emax.
  replace (Z.max (L - (53 - 1)) (3 - 1024 - 53)) with (L - 52)%Z by lia.
  set (e := (L - 52)%Z).
  pose proof (pow2_pos e) as Pe.
  assert (2 ^ L == 2 ^ 52 * 2 ^ e) as HLe.
  { rewrite <- pow2_add. unfold e. replace (52 + (L - 52))%Z with L by lia.
    reflexivity. }
  assert (a / 2 ^ e * 2 ^ e == a) as Hy by (field; lra).
  set (y := a / 2 ^ e) in *.
  assert (2 ^ 52 <= y) as Hy1.
  { apply Qnot_lt_le. intros Hc.
    assert (y * 2 ^ e < 2 ^ 52 * 2 ^ e) by (apply Qmult_lt_compat_r; lra). lra. }
  assert (2 ^ 52 <= Qrne y)%Z as N1.
  { apply Qrne_ge. change (inject_Z (2 ^ 52)) with (2 ^ 52)%Q. lra. }
  destruct (Qrne y) as [|p|p] eqn:Hn; [lia| |lia].
  assert ((e + 1 <=? 1024 - 53)%Z = false) as -> by (unfold e; lia).
  assert ((e <=? 1024 - 53)%Z = false) as -> by (unfold e; lia).
  by destruct (Z.pos p =? 2 ^ 53)%Z.
Qed.

Lemma of_int_overflow (z : Z) :
  (2 ^ 1024 <= z)%Z -> of_int z = Raise OverflowError.
Proof.
  intros Hz. unfold of_int.
  assert (2 ^ 1024 <= inject_Z z) as Hq.
  { rewrite <- pow2_inject by lia. rewrite <- Zle_Qle. lia. }
  assert (0 < inject_Z z) as Hpos by (pose proof (pow2_pos 1024); lra).
  by rewrite (round_Q_pos _ _ Hpos), (round_pos_overflow _ _ Hq).
Qed.

(** [float(z)] raises nothing but [OverflowError]. *)
Lemma of_int_raises (z : Z) (e : exn) :
  of_int z = Raise e -> e = OverflowError.
Proof.
  unfold of_int. destruct (round_Q false (inject_Z z)); congruence.
Qed.

(** An integer factor below [2^53] times an integer, the product below
    [2^53]: quotient and product are exact. *)
Lemma scale_integer (k m : Z) :
  (0 < k)%Z -> (0 < m)%Z -> (k * m < 2 ^ 53)%Z ->
  exists fm mk ek,
    of_int m = Ok fm
    /\ int_truediv_float (k * m) fm = Ok (S754_finite false mk ek)
    /\ mag mk ek == inject_Z k.
Proof.
  intros Hk Hm Hkm.
  assert (0 < m < 2 ^ 53)%Z as Hm' by nia.
  assert (0 < k < 2 ^ 53)%Z as Hk' by nia.
  destruct (of_int_exact m Hm') as (mm & em & Hfm & Hvm).
  destruct (of_int_exact (k * m) ltac:(nia)) as (mT & eT & HfT & HvT).
  exists (S754_finite false mm em).
  unfold int_truediv_float. rewrite HfT. simpl.
  fold (mag mT eT). fold (mag mm em).
  destruct (Z_Q_bounds m 53 Hm' ltac:(lia)) as [M1 M2].
  destruct (Z_Q_bounds k 53 Hk' ltac:(lia)) as [K1 K2].
  set (q := mag mT eT / mag mm em).
  assert (q == inject_Z k) as Hq.
  { unfold q. rewrite HvT, Hvm, inject_Z_mult. field. lra. }
  assert (0 < q) as Hqpos by lra.
  rewrite (round_Q_pos _ _ Hqpos).
  destruct (round_pos_dyadic false q k 0) as (ms & es & -> & Hv).
  - apply Qle_trans with (2 ^ 0); [apply pow2_le; lia|]. change (2 ^ 0) with 1. lra.
  - apply Qlt_trans with (2 ^ 53); [lra|apply pow2_lt; lia].
  - exact Hk'.
  - change (2 ^ 0) with 1. lra.
  - exists ms, es. split; [exact Hfm|]. split; [reflexivity|]. lra.
Qed.

Lemma edge_integer (k d : Z) (mk : positive) (ek : Z) :
  (0 < k)%Z -> (0 < d)%Z -> (k * d < 2 ^ 53)%Z ->
  mag mk ek == inject_Z k ->
  (x ← int_mul_float d (S754_finite false mk ek); round x) = Ok (k * d)%Z.
Proof.
  intros Hk Hd Hkd Hv.
  assert (0 < d < 2 ^ 53)%Z as Hd' by nia.
  destruct (of_int_exact d Hd') as (md & ed & Hfd & Hvd).
  unfold int_mul_float. rewrite Hfd. simpl.
  fold (mag md ed). fold (mag mk ek).
  destruct (Z_Q_bounds (k * d) 53 ltac:(nia) ltac:(lia)) as [P1 P2].
  set (p := mag md ed * mag mk ek).
  assert (p == inject_Z (k * d)) as Hp.
  { unfold p. rewrite Hvd, Hv, inject_Z_mult. ring. }
  assert (0 < p) as Hpos by lra.
  rewrite (round_Q_pos _ _ Hpos).
  destruct (round_pos_dyadic false p (k * d) 0) as (mp & ep & -> & Hvp).
  - apply Qle_trans with (2 ^ 0); [apply pow2_le; lia|]. change (2 ^ 0) with 1. lra.
  - apply Qlt_trans with (2 ^ 53); [lra|apply pow2_lt; lia].
  - nia.
  - change (2 ^ 0) with 1. lra.
  - simpl. fold (mag mp ep). f_equal. apply Qrne_inject. lra.
Qed.

(** The new edge is within one pixel of the proportional length. *)
Lemma edge_near (T m d : Z) (scale : float) :
  (0 < T)%Z -> (0 < m <= d)%Z -> (d * T < 2 ^ 48)%Z ->
  scale_of T m scale ->
  exists n,
    (x ← int_mul_float d scale; round x) = Ok n
    /\ (Z.abs (n * m - T * d) < m)%Z.
Proof.
  intros HT Hm HdT (ms & es & -> & S1 & S2).
  assert (d < 2 ^ 48 /\ T < 2 ^ 48 /\ m < 2 ^ 48)%Z as (Hd & HT' & Hm') by nia.
  destruct (of_int_exact d ltac:(lia)) as (md & ed & Hfd & Hvd).
  unfold int_mul_float. rewrite Hfd. simpl.
  fold (mag md ed). fold (mag ms es).
  destruct (Z_Q_bounds T 48 ltac:(lia) ltac:(lia)) as [T1 T2].
  destruct (Z_Q_bounds m 48 ltac:(lia) ltac:(lia)) as [M1 M2].
  destruct (Z_Q_bounds d 48 ltac:(lia) ltac:(lia)) as [D1 D2].
  destruct (Z_Q_bounds (d * T) 48 ltac:(nia) ltac:(lia)) as [X1 X2].
  rewrite inject_Z_mult in X1, X2.
  assert (inject_Z m <= inject_Z d) as Hmd by (rewrite <- Zle_Qle; lia).
  change (2 ^ 48) with 281474976710656 in *.
  set (sc := mag ms es) in *. set (p := mag md ed * sc).
  set (X := inject_Z d * inject_Z T) in *.
  assert (0 < sc) as Hsc.
  { unfold u in S1. apply Qnot_le_lt. intros Hc. nra. }
  assert (inject_Z m * p == inject_Z d * (inject_Z m * sc)) as Hmp.
  { unfold p. rewrite Hvd. ring. }
  assert (X * (1 - u) <= inject_Z m * p) as P1.
  { rewrite Hmp. unfold X, u in *. nra. }
  assert (inject_Z m * p <= X * (1 + u)) as P2.
  { rewrite Hmp. unfold X, u in *. nra. }
  assert (inject_Z T * (1 - u) <= p) as P0.
  { unfold p. rewrite Hvd. unfold u in *. nra. }
  assert (0 < p) as Hp by (unfold u in *; nra).
  assert (p <= X * (1 + u)) as P3 by nra.
  rewrite (round_Q_pos _ _ Hp).
  destruct (round_pos_rel false p) as (mp & ep & -> & V1 & V2).
  - apply Qle_trans with (2 ^ (-1)); [apply pow2_le; lia|].
    change (2 ^ (-1)) with (1 # 2). unfold u in *. nra.
  - apply Qlt_trans with (2 ^ 49); [|apply pow2_lt; lia].
    change (2 ^ 49) with 562949953421312. unfold u in *. nra.
  - simpl. fold (mag mp ep). eexists. split; [reflexivity|].
    destruct (Qrne_bounds (mag mp ep)) as [B1 B2].
    set (n := Qrne (mag mp ep)) in *. set (f := mag mp ep) in *.
    assert (inject_Z m * f <= X * (1 + u) * (1 + u)) as F2 by (unfold u in *; nra).
    assert (X * (1 - u) * (1 - u) <= inject_Z m * f) as F1 by (unfold u in *; nra).
    assert (inject_Z n * inject_Z m <= inject_Z m * f + inject_Z m * (1 # 2)) as G2
      by nra.
    assert (inject_Z m * f - inject_Z m * (1 # 2) <= inject_Z n * inject_Z m) as G1
      by nra.
    assert (- inject_Z m < inject_Z (n * m - T * d)
            /\ inject_Z (n * m - T * d) < inject_Z m) as [R1 R2].
    { unfold Z.sub. rewrite inject_Z_plus, inject_Z_opp, !inject_Z_mult.
      assert (inject_Z T * inject_Z d == X) as -> by (unfold X; ring).
      unfold u in *. split; lra. }
    rewrite <- inject_Z_opp, <- Zlt_Qlt in R1. rewrite <- Zlt_Qlt in R2. lia.
Qed.

End PyFloatMore.

Import PyFloatMore.

(** The operations agree with the reference implementation of binary64
    in the Standard Library ([binary_normalize], [SFdiv], [SFmul]) on the
    numbers of the scenarios of the specification and on numbers that are
    rounded, that are negative, or that are subnormal. *)

Example of_int_agrees :
  map PyFloat.of_int [512; 600; 2 ^ 53 + 1; 2 ^ 53 + 3; -7; 2 ^ 1024 - 2 ^ 970 - 1]
  = map (fun z => Ok (binary_normalize 53 1024 z 0 false))
      [512; 600; 2 ^ 53 + 1; 2 ^ 53 + 3; -7; 2 ^ 1024 - 2 ^ 970 - 1].
Proof. vm_compute. reflexivity. Qed.

Example div_agrees :
  let f z := binary_normalize 53 1024 z 0 false in
  let pairs := [(512, 600); (512, 400); (1, 49); (1, 3); (-1, 3);
                (2 ^ 60 + 1, 7); (1, 2 ^ 1023); (2 ^ 53 + 1, 1)] in
  map (fun p => PyFloat.div (f (fst p)) (f (snd p))) pairs
  = map (fun p => SFdiv 53 1024 (f (fst p)) (f (snd p))) pairs.
Proof. vm_compute. reflexivity. Qed.

Example mul_agrees :
  let f z := binary_normalize 53 1024 z 0 false in
  let triples := [(800, 512, 600); (600, 512, 600); (49, 1, 49);
                  (4900, 2 ^ 51 + 1, 49); (-3, 1, 7)] in
  map (fun t => PyFloat.mul (f (fst (fst t)))
                  (SFdiv 53 1024 (f (snd (fst t))) (f (snd t)))) triples
  = map (fun t => SFmul 53 1024 (f (fst (fst t)))
                    (SFdiv 53 1024 (f (snd (fst t))) (f (snd t)))) triples.
Proof. vm_compute. reflexivity. Qed.

Example int_truediv_agrees :
  map (fun p => PyFloat.int_truediv (fst p) (snd p))
    [(171, 2); (-1, 2); (3, 2 ^ 1075); (1, 2 ^ 1075)]
  = map (fun p => Ok (binary_normalize 53 1024 (fst p) (- Z.log2 (snd p)) false))
      [(171, 2); (-1, 2); (3, 2 ^ 1075); (1, 2 ^ 1075)].
Proof. vm_compute. reflexivity. Qed.

(** ** The geometry *)

Lemma new_size_edges (T w h : Z) :
  0 < T < 2 ^ 51 -> 1 <= w < 2 ^ 53 -> 1 <= h < 2 ^ 53 ->
  exists nw nh,
    new_size T w h = Ok (nw, nh)
    /\ T <= nw < 2 ^ 106 /\ T <= nh < 2 ^ 106
    /\ (w <= h -> nw = T) /\ (h <= w -> nh = T)
    /\ (w * T < 2 ^ 52 -> nw <= 2 ^ 52)
    /\ (h * T < 2 ^ 52 -> nh <= 2 ^ 52).
Proof.
  intros HT Hw Hh. unfold new_size.
  destruct (scale_ok T (Z.min w h) ltac:(lia) ltac:(lia))
    as (fm & scale & -> & Hsc & Hscale).
  simpl. rewrite Hsc. simpl.
  destruct (edge_ok T (Z.min w h) w scale HT ltac:(lia) ltac:(lia) Hscale)
    as (nw & Hnw & Bw & Ew & Sw).
  destruct (edge_ok T (Z.min w h) h scale HT ltac:(lia) ltac:(lia) Hscale)
    as (nh & Hnh & Bh & Eh & Sh).
  unfold mbind, result_bind in Hnw, Hnh |- *.
  destruct (PyFloat.int_mul_float w scale) as [x|]; [|done].
  rewrite Hnw.
  destruct (PyFloat.int_mul_float h scale) as [y|]; [|done].
  rewrite Hnh.
  exists nw, nh. split_and!; try done; lia.
Qed.

Lemma crop_box_size T nw nh x0 y0 x1 y1 :
  crop_box T nw nh = Ok (x0, y0, x1, y1) → x1 - x0 = T ∧ y1 - y0 = T.
Proof.
  unfold crop_box. destruct (nw >=? nh).
  - destruct (PyFloat.int_truediv (nw - T) 2) as [q|]; simpl; [|done].
    destruct (PyFloat.to_int q); simpl; [|done]. intros [= <- <- <- <-]. lia.
  - destruct (PyFloat.int_truediv (nh - T) 2) as [q|]; simpl; [|done].
    destruct (PyFloat.to_int q); simpl; [|done]. intros [= <- <- <- <-]. lia.
Qed.

(** C3, with bounds on the sizes: for a decoded image of width and height
    from 1 to below [2^53] and a target size [T] with [0 < T < 2^51], the
    new size [(round(w * scale), round(h * scale))], with the float
    [scale = T / float(min(w, h))], is computed without error, its shorter
    edge is exactly [T] and its longer edge is at least [T]. *)
Theorem new_size_shorter_edge (T w h : Z) :
  0 < T < 2 ^ 51 -> 1 <= w < 2 ^ 53 -> 1 <= h < 2 ^ 53 ->
  exists new_width new_height,
    new_size T w h = Ok (new_width, new_height)
    /\ Z.min new_width new_height = T
    /\ T <= Z.max new_width new_height.
Proof.
  intros HT Hw Hh.
  destruct (new_size_edges T w h HT Hw Hh)
    as (nw & nh & Hn & Bw & Bh & Ew & Eh & _).
  exists nw, nh. split; [exact Hn|]. lia.
Qed.

Lemma new_size_shorter_edge_witness :
  exists new_width new_height,
    new_size 512 800 600 = Ok (new_width, new_height)
    /\ Z.min new_width new_height = 512
    /\ 512 <= Z.max new_width new_height.
Proof. apply (new_size_shorter_edge 512 800 600); lia. Defined.

Lemma new_size_shorter_edge_counterexample :
  ~ (forall T w h : Z,
       0 < T -> 1 <= w -> 1 <= h ->
       exists new_width new_height,
         new_size T w h = Ok (new_width, new_height)
         /\ Z.min new_width new_height = T
         /\ T <= Z.max new_width new_height).
Proof.
  intros Hall.
  destruct (Hall (2 ^ 53 + 1) 1 1) as (nw & nh & Hn & Hmin & _); [lia..|].
  vm_compute in Hn. injection Hn as <- <-. vm_compute in Hmin. discriminate.
Qed.

(** The bound on [T] is needed: a little above [2^51] the two roundings of
    the scale and of the product can add up to one pixel. *)
Example new_size_above_bound :
  2 ^ 51 < 3252759586145817 < 2 ^ 52
  /\ new_size 3252759586145817 2495 2495
     = Ok (3252759586145816, 3252759586145816).
Proof. split; [lia|]. vm_compute. reflexivity. Qed.

(** The crop box when the longer edge is at least [T] and the difference
    is below [2^53]: the halving is exact. *)
Lemma crop_box_exact (T new_width new_height : Z) :
  0 < T ->
  (new_height <= new_width -> T <= new_width < T + 2 ^ 53 ->
   crop_box T new_width new_height
   = Ok ((new_width - T) / 2, 0, (new_width - T) / 2 + T, T))
  /\ (new_width < new_height -> T <= new_height < T + 2 ^ 53 ->
      crop_box T new_width new_height
      = Ok (0, (new_height - T) / 2, T, (new_height - T) / 2 + T)).
Proof.
  intros HT. unfold crop_box. split; intros Hb Hr.
  - assert ((new_width >=? new_height) = true) as -> by lia.
    pose proof (half_exact (new_width - T) ltac:(lia)) as Hh.
    unfold mbind, result_bind in Hh |- *.
    destruct (PyFloat.int_truediv (new_width - T) 2); [|done].
    by rewrite Hh.
  - assert ((new_width >=? new_height) = false) as -> by lia.
    pose proof (half_exact (new_height - T) ltac:(lia)) as Hh.
    unfold mbind, result_bind in Hh |- *.
    destruct (PyFloat.int_truediv (new_height - T) 2); [|done].
    by rewrite Hh.
Qed.

(** C4, with bounds on the sizes: for [T > 0], when
    [new_width >= new_height] (the square tie included) and
    [T <= new_width < T + 2^53], the crop box is
    [(floor((new_width - T) / 2), 0, left + T, T)]; when
    [new_width < new_height] and [T <= new_height < T + 2^53], it is
    [(0, floor((new_height - T) / 2), T, top + T)]. *)
Theorem crop_box_centered (T new_width new_height : Z) :
  0 < T ->
  (new_height <= new_width -> T <= new_width < T + 2 ^ 53 ->
   crop_box T new_width new_height
   = Ok ((new_width - T) / 2, 0, (new_width - T) / 2 + T, T))
  /\ (new_width < new_height -> T <= new_height < T + 2 ^ 53 ->
      crop_box T new_width new_height
      = Ok (0, (new_height - T) / 2, T, (new_height - T) / 2 + T)).
Proof. apply crop_box_exact. Qed.

Lemma crop_box_centered_witness :
  0 < 512
  /\ crop_box 512 683 512
     = Ok ((683 - 512) / 2, 0, (683 - 512) / 2 + 512, 512)
  /\ crop_box 512 512 768
     = Ok (0, (768 - 512) / 2, 512, (768 - 512) / 2 + 512).
Proof.
  split; [lia|]. split.
  - apply (proj1 (crop_box_centered 512 683 512 ltac:(lia))); lia.
  - apply (proj2 (crop_box_centered 512 512 768 ltac:(lia))); lia.
Defined.

Lemma crop_box_floor_counterexample :
  ~ (forall T new_width new_height : Z,
       0 < T ->
       (new_width >= new_height ->
        crop_box T new_width new_height
        = Ok ((new_width - T) / 2, 0, (new_width - T) / 2 + T, T))
       /\ (new_width < new_height ->
           crop_box T new_width new_height
           = Ok (0, (new_height - T) / 2, T, (new_height - T) / 2 + T))).
Proof.
  intros Hall.
  destruct (Hall (2 ^ 53 + 1) (2 ^ 53) (2 ^ 53) ltac:(lia)) as [Hl _].
  specialize (Hl ltac:(lia)). vm_compute in Hl. discriminate.
Qed.

(** The sizes of that counterexample are those of a run: an image of one
    pixel and the target size [2^53 + 1], which the conversion to a float
    rounds to [2^53]. *)
Example geometry_one_pixel :
  geometry (2 ^ 53 + 1) 1 1
  = Ok (2 ^ 53, 2 ^ 53, (0, 0, 2 ^ 53 + 1, 2 ^ 53 + 1)).
Proof. vm_compute. reflexivity. Qed.

(** For sizes below [2^26] the whole geometry is that of the
    specification: the shorter edge becomes [T], and the crop box is the
    centred one, with the floors. *)
Lemma geometry_small (T w h : Z) :
  0 < T < 2 ^ 26 -> 1 <= w < 2 ^ 26 -> 1 <= h < 2 ^ 26 ->
  exists new_width new_height,
    Z.min new_width new_height = T
    /\ geometry T w h
       = Ok (new_width, new_height,
             if new_width >=? new_height
             then ((new_width - T) / 2, 0, (new_width - T) / 2 + T, T)
             else (0, (new_height - T) / 2, T, (new_height - T) / 2 + T)).
Proof.
  intros HT Hw Hh.
  assert (w * T < 2 ^ 52 /\ h * T < 2 ^ 52) as [HwT HhT].
  { change (2 ^ 52) with (2 ^ 26 * 2 ^ 26). split; nia. }
  destruct (new_size_edges T w h ltac:(lia) ltac:(lia) ltac:(lia))
    as (nw & nh & Hn & Bw & Bh & Ew & Eh & Sw & Sh).
  specialize (Sw HwT). specialize (Sh HhT).
  exists nw, nh. split; [lia|].
  unfold geometry. rewrite Hn. simpl.
  destruct (crop_box_exact T nw nh ltac:(lia)) as [Hl Hp].
  destruct (nw >=? nh) eqn:Hb.
  - rewrite Hl; [done|lia|lia].
  - rewrite Hp; [done|lia|lia].
Qed.

(** C9, with bounds on the sizes: for a decoded image of width and height
    from 1 to below [2^53] and a target size [T] with [0 < T < 2^51], the
    geometry is computed without error and the crop box, a square of side
    [T], lies inside the resized image: [0 <= left], [left + T <= new_width],
    [0 <= top] and [top + T <= new_height]. *)
Theorem crop_box_inside (T w h : Z) :
  0 < T < 2 ^ 51 -> 1 <= w < 2 ^ 53 -> 1 <= h < 2 ^ 53 ->
  exists new_width new_height x0 y0 x1 y1,
    geometry T w h = Ok (new_width, new_height, (x0, y0, x1, y1))
    /\ 0 <= x0 /\ x1 = x0 + T /\ x1 <= new_width
    /\ 0 <= y0 /\ y1 = y0 + T /\ y1 <= new_height.
Proof.
  intros HT Hw Hh. unfold geometry.
  destruct (new_size_edges T w h HT Hw Hh) as (nw & nh & -> & Bw & Bh & _).
  simpl. unfold crop_box. destruct (nw >=? nh) eqn:Hb.
  - destruct (half_bounds (nw - T)) as (l & Hl & Bl).
    { assert (2 ^ 106 < 2 ^ 1000) by (apply Z.pow_lt_mono_r; lia). lia. }
    unfold mbind, result_bind in Hl |- *.
    destruct (PyFloat.int_truediv (nw - T) 2); [|done].
    rewrite Hl. exists nw, nh, l, 0, (l + T), T.
    split; [reflexivity|]. lia.
  - destruct (half_bounds (nh - T)) as (l & Hl & Bl).
    { assert (2 ^ 106 < 2 ^ 1000) by (apply Z.pow_lt_mono_r; lia). lia. }
    unfold mbind, result_bind in Hl |- *.
    destruct (PyFloat.int_truediv (nh - T) 2); [|done].
    rewrite Hl. exists nw, nh, 0, l, T, (l + T).
    split; [reflexivity|]. lia.
Qed.

Lemma crop_box_inside_witness :
  exists new_width new_height x0 y0 x1 y1,
    geometry 512 400 600 = Ok (new_width, new_height, (x0, y0, x1, y1))
    /\ 0 <= x0 /\ x1 = x0 + 512 /\ x1 <= new_width
    /\ 0 <= y0 /\ y1 = y0 + 512 /\ y1 <= new_height.
Proof. apply (crop_box_inside 512 400 600); lia. Defined.

Lemma crop_box_inside_counterexample :
  ~ (forall T w h : Z,
       0 < T -> 1 <= w -> 1 <= h ->
       forall new_width new_height x0 y0 x1 y1,
         geometry T w h = Ok (new_width, new_height, (x0, y0, x1, y1)) ->
         (new_width >= new_height -> 0 <= x0 /\ x0 + T <= new_width)
         /\ (new_width < new_height -> 0 <= y0 /\ y0 + T <= new_height)).
Proof.
  intros Hall.
  destruct (Hall (2 ^ 53 + 1) 1 1 ltac:(lia) ltac:(lia) ltac:(lia)
              (2 ^ 53) (2 ^ 53) 0 0 (2 ^ 53 + 1) (2 ^ 53 + 1)) as [Hl _].
  - vm_compute. reflexivity.
  - destruct Hl as [_ Hl]; [lia|]. vm_compute in Hl. by apply Hl.
Qed.

(** The scenarios of the specification. *)
Example geometry_800x600 :
  geometry 512 800 600 = Ok (683, 512, (85, 0, 597, 512)).
Proof. vm_compute. reflexivity. Qed.

Example geometry_400x600 :
  geometry 512 400 600 = Ok (512, 768, (0, 128, 512, 640)).
Proof. vm_compute. reflexivity. Qed.

(** *** More on the geometry *)

(** X1: a square image needs no crop: both new edges are the target size
    and the crop box is the whole resized image. *)
Theorem geometry_square (T w : Z) :
  0 < T < 2 ^ 51 -> 1 <= w < 2 ^ 53 ->
  geometry T w w = Ok (T, T, (0, 0, T, T)).
Proof.
  intros HT Hw.
  destruct (new_size_edges T w w HT Hw Hw)
    as (nw & nh & Hn & _ & _ & Ew & Eh & _).
  rewrite (Ew ltac:(lia)), (Eh ltac:(lia)) in Hn.
  unfold geometry. rewrite Hn. simpl.
  destruct (crop_box_exact T T T ltac:(lia)) as [Hl _].
  rewrite Hl; [|lia..]. by replace (T - T) with 0 by lia.
Qed.

Lemma geometry_square_witness :
  geometry 512 600 600 = Ok (512, 512, (0, 0, 512, 512)).
Proof. apply (geometry_square 512 600); lia. Defined.

(** X2: the crop runs along the longer edge of the input only: a
    landscape or square input keeps its whole new height, a portrait or
    square input its whole new width. *)
Theorem geometry_crops_longer_edge (T w h : Z) :
  0 < T < 2 ^ 51 -> 1 <= w < 2 ^ 53 -> 1 <= h < 2 ^ 53 ->
  exists new_width new_height x0 y0 x1 y1,
    geometry T w h = Ok (new_width, new_height, (x0, y0, x1, y1))
    /\ (h <= w -> new_height = T /\ y0 = 0 /\ y1 = T)
    /\ (w <= h -> new_width = T /\ x0 = 0 /\ x1 = T).
Proof.
  intros HT Hw Hh. unfold geometry.
  destruct (new_size_edges T w h HT Hw Hh)
    as (nw & nh & -> & Bw & Bh & Ew & Eh & _).
  simpl. unfold crop_box. destruct (nw >=? nh) eqn:Hb.
  - destruct (half_bounds (nw - T)) as (l & Hl & Bl).
    { assert (2 ^ 106 < 2 ^ 1000) by (apply Z.pow_lt_mono_r; lia). lia. }
    unfold mbind, result_bind in Hl |- *.
    destruct (PyFloat.int_truediv (nw - T) 2); [|done].
    rewrite Hl. exists nw, nh, l, 0, (l + T), T.
    split; [reflexivity|]. split; intros Hle.
    + specialize (Eh Hle). lia.
    + specialize (Ew Hle). lia.
  - destruct (half_bounds (nh - T)) as (l & Hl & Bl).
    { assert (2 ^ 106 < 2 ^ 1000) by (apply Z.pow_lt_mono_r; lia). lia. }
    unfold mbind, result_bind in Hl |- *.
    destruct (PyFloat.int_truediv (nh - T) 2); [|done].
    rewrite Hl. exists nw, nh, 0, l, T, (l + T).
    split; [reflexivity|]. split; intros Hle.
    + specialize (Eh Hle). lia.
    + specialize (Ew Hle). lia.
Qed.

Lemma geometry_crops_longer_edge_witness :
  exists new_width new_height x0 y0 x1 y1,
    geometry 512 800 600 = Ok (new_width, new_height, (x0, y0, x1, y1))
    /\ (600 <= 800 -> new_height = 512 /\ y0 = 0 /\ y1 = 512)
    /\ (800 <= 600 -> new_width = 512 /\ x0 = 0 /\ x1 = 512).
Proof. apply (geometry_crops_longer_edge 512 800 600); lia. Defined.

(** X3: when the target size is a multiple of the shorter edge, every
    edge is multiplied by that factor exactly; in particular an image
    whose shorter edge is the target size already keeps its size. *)
Theorem new_size_integer_factor (k w h : Z) :
  1 <= k -> 1 <= w -> 1 <= h -> k * w < 2 ^ 53 -> k * h < 2 ^ 53 ->
  new_size (k * Z.min w h) w h = Ok (k * w, k * h).
Proof.
  intros Hk Hw Hh Hkw Hkh. unfold new_size.
  destruct (scale_integer k (Z.min w h) ltac:(lia) ltac:(lia) ltac:(nia))
    as (fm & mk & ek & -> & Hsc & Hv).
  simpl. rewrite Hsc. simpl.
  pose proof (edge_integer k w mk ek ltac:(lia) ltac:(lia) Hkw Hv) as Ew.
  pose proof (edge_integer k h mk ek ltac:(lia) ltac:(lia) Hkh Hv) as Eh.
  unfold mbind, result_bind in Ew, Eh |- *.
  destruct (PyFloat.int_mul_float w (S754_finite false mk ek)); [|done].
  rewrite Ew.
  destruct (PyFloat.int_mul_float h (S754_finite false mk ek)); [|done].
  by rewrite Eh.
Qed.

Lemma new_size_integer_factor_witness :
  new_size (2 * Z.min 300 200) 300 200 = Ok (2 * 300, 2 * 200).
Proof. apply (new_size_integer_factor 2 300 200); lia. Defined.

(** Each new edge is within one pixel of the proportional length. *)
Lemma new_size_near (T w h : Z) :
  0 < T < 2 ^ 24 -> 1 <= w < 2 ^ 24 -> 1 <= h < 2 ^ 24 ->
  exists new_width new_height,
    new_size T w h = Ok (new_width, new_height)
    /\ Z.abs (new_width * Z.min w h - T * w) < Z.min w h
    /\ Z.abs (new_height * Z.min w h - T * h) < Z.min w h.
Proof.
  intros HT Hw Hh. unfold new_size.
  destruct (scale_ok T (Z.min w h) ltac:(lia) ltac:(lia))
    as (fm & scale & -> & Hsc & Hscale).
  simpl. rewrite Hsc. simpl.
  assert (w * T < 2 ^ 48 /\ h * T < 2 ^ 48) as [HwT HhT].
  { change (2 ^ 48) with (2 ^ 24 * 2 ^ 24). split; nia. }
  destruct (edge_near T (Z.min w h) w scale ltac:(lia) ltac:(lia) HwT Hscale)
    as (nw & Hnw & Bw).
  destruct (edge_near T (Z.min w h) h scale ltac:(lia) ltac:(lia) HhT Hscale)
    as (nh & Hnh & Bh).
  unfold mbind, result_bind in Hnw, Hnh |- *.
  destruct (PyFloat.int_mul_float w scale) as [x|]; [|done].
  rewrite Hnw.
  destruct (PyFloat.int_mul_float h scale) as [y|]; [|done].
  rewrite Hnh.
  by exists nw, nh.
Qed.

(** X4: the aspect ratio is kept up to one pixel: each new edge differs
    from the proportional length [T * d / min(w, h)] by less than 1. *)
Theorem new_size_proportional (T w h : Z) :
  0 < T < 2 ^ 24 -> 1 <= w < 2 ^ 24 -> 1 <= h < 2 ^ 24 ->
  exists new_width new_height,
    new_size T w h = Ok (new_width, new_height)
    /\ Z.abs (new_width * Z.min w h - T * w) < Z.min w h
    /\ Z.abs (new_height * Z.min w h - T * h) < Z.min w h.
Proof. apply new_size_near. Qed.

Lemma new_size_proportional_witness :
  exists new_width new_height,
    new_size 512 800 600 = Ok (new_width, new_height)
    /\ Z.abs (new_width * Z.min 800 600 - 512 * 800) < Z.min 800 600
    /\ Z.abs (new_height * Z.min 800 600 - 512 * 600) < Z.min 800 600.
Proof. apply (new_size_proportional 512 800 600); lia. Defined.

(** X5: the resize works both ways: an image whose shorter edge is below
    the target size is enlarged, both edges grow; one whose shorter edge
    is above it is reduced, both edges shrink. *)
Theorem new_size_both_ways (T w h : Z) :
  0 < T < 2 ^ 24 -> 1 <= w < 2 ^ 24 -> 1 <= h < 2 ^ 24 ->
  exists new_width new_height,
    new_size T w h = Ok (new_width, new_height)
    /\ (Z.min w h < T -> w < new_width /\ h < new_height)
    /\ (T < Z.min w h -> new_width < w /\ new_height < h).
Proof.
  intros HT Hw Hh.
  destruct (new_size_near T w h HT Hw Hh) as (nw & nh & Hn & Bw & Bh).
  exists nw, nh. split; [exact Hn|].
  set (m := Z.min w h) in *.
  assert (1 <= m /\ m <= w /\ m <= h) as (Hm & Hmw & Hmh) by (unfold m; lia).
  clearbody m. split; intros Hlt.
  - assert ((m + 1) * w <= T * w) by (apply Z.mul_le_mono_nonneg_r; lia).
    assert ((m + 1) * h <= T * h) by (apply Z.mul_le_mono_nonneg_r; lia).
    assert (m * w < nw * m) by lia. assert (m * h < nh * m) by lia.
    split; apply (Z.mul_lt_mono_pos_l m); lia.
  - assert (T * w <= (m - 1) * w) by (apply Z.mul_le_mono_nonneg_r; lia).
    assert (T * h <= (m - 1) * h) by (apply Z.mul_le_mono_nonneg_r; lia).
    assert (nw * m < m * w) by lia. assert (nh * m < m * h) by lia.
    split; apply (Z.mul_lt_mono_pos_l m); lia.
Qed.

Lemma new_size_both_ways_witness :
  exists new_width new_height,
    new_size 512 80 60 = Ok (new_width, new_height)
    /\ (Z.min 80 60 < 512 -> 80 < new_width /\ 60 < new_height)
    /\ (512 < Z.min 80 60 -> new_width < 80 /\ new_height < 60).
Proof. apply (new_size_both_ways 512 80 60); lia. Defined.

(** X6: the crop is centred: the two margins it cuts off along an axis
    differ by at most one pixel, the larger one on the right or at the
    bottom. *)
Theorem crop_box_margins (T w h : Z) :
  0 < T < 2 ^ 26 -> 1 <= w < 2 ^ 26 -> 1 <= h < 2 ^ 26 ->
  exists new_width new_height x0 y0 x1 y1,
    geometry T w h = Ok (new_width, new_height, (x0, y0, x1, y1))
    /\ 0 <= (new_width - x1) - x0 <= 1
    /\ 0 <= (new_height - y1) - y0 <= 1.
Proof.
  intros HT Hw Hh.
  destruct (geometry_small T w h HT Hw Hh) as (nw & nh & Hmin & Hg).
  destruct (nw >=? nh) eqn:Hb.
  - exists nw, nh, ((nw - T) / 2), 0, ((nw - T) / 2 + T), T.
    split; [exact Hg|].
    pose proof (Z.div_mod (nw - T) 2 ltac:(lia)).
    pose proof (Z.mod_pos_bound (nw - T) 2 ltac:(lia)). lia.
  - exists nw, nh, 0, ((nh - T) / 2), T, ((nh - T) / 2 + T).
    split; [exact Hg|].
    pose proof (Z.div_mod (nh - T) 2 ltac:(lia)).
    pose proof (Z.mod_pos_bound (nh - T) 2 ltac:(lia)). lia.
Qed.

Lemma crop_box_margins_witness :
  exists new_width new_height x0 y0 x1 y1,
    geometry 512 800 600 = Ok (new_width, new_height, (x0, y0, x1, y1))
    /\ 0 <= (new_width - x1) - x0 <= 1
    /\ 0 <= (new_height - y1) - y0 <= 1.
Proof. apply (crop_box_margins 512 800 600); lia. Defined.

(** A target size of [2^1024] or more is no float: the new size is never
    computed. *)
Lemma new_size_overflow (T w h : Z) :
  2 ^ 1024 <= T -> new_size T w h = Raise OverflowError.
Proof.
  intros HT. unfold new_size.
  destruct (PyFloat.of_int (Z.min w h)) as [fm|e] eqn:Hm; simpl.
  - unfold PyFloat.int_truediv_float. by rewrite (of_int_overflow T HT).
  - by rewrite (of_int_raises _ _ Hm).
Qed.

(** An image with an edge of no pixel: the scale is a division by zero,
    when the target size is a float at all. *)
Lemma new_size_zero_raises (T w h : Z) :
  Z.min w h = 0 ->
  new_size T w h = Raise ZeroDivisionError
  \/ new_size T w h = Raise OverflowError.
Proof.
  intros Hm. unfold new_size. rewrite Hm.
  change (PyFloat.of_int 0) with (Ok (S754_zero false) : result PyFloat.float).
  simpl. unfold PyFloat.int_truediv_float.
  destruct (PyFloat.of_int T) as [x|e] eqn:Hx; [by left|].
  right. by rewrite (of_int_raises _ _ Hx).
Qed.

(** ** [download] *)

Lemma last_app_two {A} (l1 l2 l3 : list A) (a b d : A) :
  List.last (l1 ++ l2 ++ l3 ++ [a; b]) d = b.
Proof.
  change [a; b] with ([a] ++ [b]). rewrite !app_assoc. apply last_last.
Qed.

Section DownloadFacts.

Context {collab : Collaborators}.

Lemma M_bind_assoc {A B C} (c : M A) (k : A → M B) (k' : B → M C) w :
  ((c ≫= k) ≫= k') w = (c ≫= (λ a, k a ≫= k')) w.
Proof.
  unfold mbind, M_bind. destruct (c w) as [[a|e] w1]; [|done]. done.
Qed.

Lemma M_bind_ext {A B} (c : M A) (k k' : A → M B) w :
  (∀ a w1, k a w1 = k' a w1) → (c ≫= k) w = (c ≫= k') w.
Proof.
  intros Hk. unfold mbind, M_bind. destruct (c w) as [[a|e] w1]; [|done]. apply Hk.
Qed.

Lemma download_body_phases self u save_to w :
  download_body self u save_to w
  = (fetch_image self u ≫= store_image save_to) w.
Proof.
  unfold download_body, fetch_image.
  rewrite M_bind_assoc. apply M_bind_ext. intros response w1.
  destruct (negb (status_code response =? 200)
            || PyStr.contains "removed.png" (url response)); [done|].
  rewrite M_bind_assoc. apply M_bind_ext. intros opened w2.
  rewrite M_bind_assoc. apply M_bind_ext. intros image w3.
  rewrite M_bind_assoc. apply M_bind_ext. intros image' w4.
  done.
Qed.

Lemma add_log_add_log w e1 e2 : add_log (add_log w e1) e2 = add_log w (e1 ++ e2).
Proof. unfold add_log. simpl. by rewrite app_assoc. Qed.

Lemma blind_lift {A} (r : result A) : blind (lift r).
Proof.
  exists r, []. intros [c t l]. unfold lift, add_log. simpl. by rewrite app_nil_r.
Qed.

Lemma blind_ret {A} (a : A) : blind (mret a : M A).
Proof. apply (blind_lift (Ok a)). Qed.

Lemma blind_emit e : blind (emit e).
Proof. by exists (Ok tt), [e]. Qed.

Lemma blind_bind {A B} (c : M A) (k : A → M B) :
  blind c → (∀ a, blind (k a)) → blind (c ≫= k).
Proof.
  intros (r & evs & Hc) Hk. destruct r as [a|e].
  - destruct (Hk a) as (r' & evs' & Hka).
    exists r', (evs ++ evs'). intros w. unfold mbind, M_bind.
    by rewrite Hc, Hka, add_log_add_log.
  - exists (Raise e), evs. intros w. unfold mbind, M_bind. by rewrite Hc.
Qed.

Lemma blind_fetch_image self u : blind (fetch_image self u).
Proof.
  unfold fetch_image, requests_get, Image_open, Image_convert,
    Image_resize, Image_crop, call.
  repeat first
    [ apply blind_bind; [|intros ?]
    | apply blind_emit | apply blind_lift | apply blind_ret
    | match goal with
      | |- blind (if ?b then _ else _) => destruct b
      | |- blind (let '(_, _) := ?p in _) => destruct p
      end ].
Qed.


Lemma fetch_image_Some self u w image w1 :
  fetch_image self u w = (Ok (Some image), w1) ↔
  ∃ response opened rgb evs,
    http_get u = Ok response ∧
    status_code response = 200 ∧
    PyStr.contains "removed.png" (url response) = false ∧
    decode_header (content response) = Ok opened ∧
    pil_convert opened "RGB" = Ok rgb ∧
    transform_ok self rgb image evs ∧
    w1 = add_log w ([EvGet u; EvOpen (content response); EvConvert "RGB"]
                    ++ evs).
Proof.
  unfold fetch_image, requests_get, Image_open, Image_convert,
    Image_resize, Image_crop, call, add_log.
  unfold mbind, M_bind, emit, lift, mret, M_ret. simpl.
  split.
  - destruct (http_get u) as [response|] eqn:Hget; [|done].
    destruct (status_code response =? 200) eqn:Hst; simpl; [|done].
    destruct (PyStr.contains "removed.png" (url response)) eqn:Hrm; [done|].
    destruct (decode_header (content response)) as [opened|] eqn:Hop; [|done].
    destruct (pil_convert opened "RGB") as [rgb|] eqn:Hcv; [|done].
    destruct (crop_resize self >? 0) eqn:Hcr.
    + destruct (size rgb) as [iw ih] eqn:Hsz. simpl.
      destruct (new_size (crop_resize self) iw ih) as [[nw nh]|] eqn:Hns; [|done].
      destruct (crop_box (crop_resize self) nw nh) as [b|] eqn:Hcb; [|done].
      destruct (pil_resize rgb (nw, nh)) as [resized|] eqn:Hrs; [|done].
      destruct (pil_crop resized b) as [cropped|] eqn:Hcp; [|done].
      intros [= <- <-].
      exists response, opened, rgb, [EvResize (nw, nh); EvCrop b].
      split_and!; try done.
      * lia.
      * apply transform_on with resized; [lia|by rewrite Hsz|done..].
      * simpl. by rewrite <- !app_assoc.
    + intros [= <- <-]. exists response, opened, rgb, [].
      split_and!; try done.
      * lia.
      * apply transform_off. lia.
      * simpl. by rewrite <- !app_assoc.
  - intros (response & opened & rgb & evs & -> & Hst & -> & -> & -> & Htr & ->).
    rewrite Hst. simpl.
    destruct Htr as [image Hle | image nw nh b resized cropped Hlt Hns Hcb Hrs Hcp].
    + replace (crop_resize self >? 0) with false by lia.
      simpl. by rewrite <- !app_assoc.
    + replace (crop_resize self >? 0) with true by lia.
      destruct (size image) as [iw ih]. simpl in *.
      rewrite Hns, Hcb, Hrs, Hcp. simpl. by rewrite <- !app_assoc.
Qed.

Lemma store_image_Some save_to image w1 b w' :
  store_image save_to (Some image) w1 = (Ok b, w') ↔
  b = true ∧
  ∃ t1 p bytes,
    Fs.makedirs (cwd w1) (PyStr.dirname save_to) (fs w1) = (Ok tt, t1) ∧
    save_handler save_to image = Some (bytes, true) ∧
    Fs.open_target (cwd w1) save_to t1 = Ok p ∧
    w' = {| cwd := cwd w1;
            fs := <[p := Fs.File bytes]> t1;
            log := log w1 ++ [EvMakedirs (PyStr.dirname save_to);
                              EvSave image save_to] |}.
Proof.
  unfold store_image, os_makedirs, Image_save, save_file, on_fs, set_fs.
  unfold mbind, M_bind, emit, mret, M_ret. simpl.
  split.
  - destruct (Fs.makedirs (cwd w1) (PyStr.dirname save_to) (fs w1))
      as [[[]|] t1] eqn:Hmk; simpl; [|done].
    destruct (save_handler save_to image) as [[bytes finished]|] eqn:Hsh;
      simpl; [|done].
    destruct (Fs.open_target (cwd w1) save_to t1) as [p|] eqn:Hop; simpl; [|done].
    destruct finished; simpl.
    + intros [= <- <-]. split; [done|]. exists t1, p, bytes.
      split_and!; try done. by rewrite <- app_assoc.
    + by destruct (negb (Fs.path_exists (cwd w1) save_to t1)).
  - intros (-> & t1 & p & bytes & -> & -> & Hop & ->). simpl.
    rewrite Hop. simpl. by rewrite <- app_assoc.
Qed.

Lemma download_true_iff self u save_to w w' :
  download self u save_to w = (true, w') ↔ completes self u save_to w w'.
Proof.
  unfold download, try_except. rewrite download_body_phases.
  unfold mbind at 1. unfold M_bind at 1.
  destruct (fetch_image self u w) as [[[image|]|e] w1] eqn:Hf.
  - apply fetch_image_Some in Hf
      as (response & opened & rgb & evs & Hget & Hst & Hrm & Hop & Hcv & Htr & ->).
    split.
    + destruct (store_image save_to (Some image) _) as [[b|e] w2] eqn:Hs; [|done].
      intros [= -> ->].
      apply store_image_Some in Hs as (_ & t1 & p & bytes & Hmk & Hsh & Hot & ->).
      eapply Completes; eauto. simpl. by rewrite <- !app_assoc.
    + intros [response' opened' rgb' image' evs' t1 p bytes
                Hget' _ _ Hop' Hcv' Htr' Hmk Hsh Hot ->].
      rewrite Hget in Hget'. injection Hget' as <-.
      rewrite Hop in Hop'. injection Hop' as <-.
      rewrite Hcv in Hcv'. injection Hcv' as <-.
      assert (image' = image ∧ evs' = evs) as [-> ->].
      { destruct Htr; destruct Htr'; try lia; [done|].
        repeat match goal with
               | H1 : ?x = Ok _, H2 : ?x = Ok _ |- _ =>
                   rewrite H1 in H2; injection H2 as ?; subst
               end. done. }
      assert (store_image save_to (Some image)
                (add_log w ([EvGet u; EvOpen (content response); EvConvert "RGB"] ++ evs))
              = (Ok true, {| cwd := cwd w; fs := <[p:=Fs.File bytes]> t1;
                   log := log w ++ [EvGet u; EvOpen (content response); EvConvert "RGB"]
                          ++ evs ++ [EvMakedirs (PyStr.dirname save_to); EvSave image save_to] |}))
        as ->; [|done].
      apply store_image_Some. split; [done|]. exists t1, p, bytes.
      split_and!; try done. simpl. by rewrite <- !app_assoc.
  - simpl. split; [done|].
    intros [response opened rgb image evs t1 p bytes
              Hget Hst Hrm Hop Hcv Htr Hmk Hsh Hot ->].
    assert (fetch_image self u w
            = (Ok (Some image), add_log w
                 ([EvGet u; EvOpen (content response); EvConvert "RGB"] ++ evs))) as Hf'.
    { apply fetch_image_Some. exists response, opened, rgb, evs. done. }
    congruence.
  - split; [done|].
    intros [response opened rgb image evs t1 p bytes
              Hget Hst Hrm Hop Hcv Htr Hmk Hsh Hot ->].
    assert (fetch_image self u w
            = (Ok (Some image), add_log w
                 ([EvGet u; EvOpen (content response); EvConvert "RGB"] ++ evs))) as Hf'.
    { apply fetch_image_Some. exists response, opened, rgb, evs. done. }
    congruence.
Qed.

(** Saving the same image again leaves the tree as the first save left
    it, and ends the same way. *)
Lemma save_file_idem (image : Image Pix) (name : string) (c : Fs.loc)
  (t t' : Fs.tree) (r : result unit) :
  save_file image name c t = (r, t') →
  save_file image name c t' = (r, t')
  ∧ Fs.same_dirs t t'
  ∧ (∀ q, Fs.exists_at t q = true → Fs.exists_at t' q = true).
Proof.
  unfold save_file.
  destruct (save_handler name image) as [[bytes finished]|]; [|by intros [= <- <-]].
  destruct (Fs.open_target c name t) as [p|e] eqn:Ho; [|by intros [= <- <-]; rewrite Ho].
  destruct (open_target_Ok _ _ _ _ Ho) as (_ & Hp & _ & _).
  pose proof (path_exists_open_target _ _ _ _ Ho) as Hex.
  destruct finished.
  - intros [= <- <-].
    pose proof (same_dirs_insert_file t p bytes Hp) as Hs.
    rewrite (open_target_same_dirs _ _ _ _ _ Hs Ho), insert_insert_eq.
    split_and!; [done|done|]. intros q. apply exists_at_insert.
  - rewrite Hex. destruct (Fs.exists_at t p) eqn:Hep; simpl.
    + intros [= <- <-].
      pose proof (same_dirs_insert_file t p bytes Hp) as Hs.
      pose proof (open_target_same_dirs _ _ _ _ _ Hs Ho) as Ho2.
      rewrite Ho2, (path_exists_open_target _ _ _ _ Ho2), insert_insert_eq.
      rewrite (exists_at_insert t p (Fs.File bytes) p Hep). simpl.
      split_and!; [done|done|]. intros q. apply exists_at_insert.
    + rewrite (delete_id _ _ (exists_at_None _ _ Hep)).
      intros [= <- <-]. rewrite Ho, Hex. simpl.
      rewrite (delete_id _ _ (exists_at_None _ _ Hep)). done.
Qed.
Lemma try_store_image (image : Image Pix) (save_to : string) (w : World) :
  let out := try_except (store_image save_to (Some image)) w in
  fst out = fst (store_tree image save_to (cwd w) (fs w))
  ∧ fs (snd out) = snd (store_tree image save_to (cwd w) (fs w))
  ∧ cwd (snd out) = cwd w.
Proof.
  unfold try_except, store_image, store_tree, os_makedirs, Image_save,
    on_fs, set_fs.
  unfold mbind, M_bind, emit, mret, M_ret. simpl.
  destruct (Fs.makedirs (cwd w) (PyStr.dirname save_to) (fs w))
    as [[[]|e] t1]; simpl; [|done].
  by destruct (save_file image save_to (cwd w) t1) as [[[]|e] t2].
Qed.

Lemma store_tree_idem (image : Image Pix) (save_to : string)
  (c : Fs.loc) (t t' : Fs.tree) (b : bool) :
  store_tree image save_to c t = (b, t') →
  store_tree image save_to c t' = (b, t').
Proof.
  unfold store_tree.
  destruct (Fs.makedirs c (PyStr.dirname save_to) t) as [[[]|e] t1] eqn:Hmk.
  - destruct (save_file image save_to c t1) as [r t2] eqn:Hsv.
    intros [= <- <-].
    destruct (save_file_idem _ _ _ _ _ _ Hsv) as (Hsv2 & Hs & He).
    apply Fs_makedirs_idem in Hmk.
    rewrite (Fs_makedirs_same_dirs _ _ _ _ Hs He Hmk). by rewrite Hsv2.
  - intros [= <- <-]. by rewrite (Fs_makedirs_idem _ _ _ _ _ Hmk).
Qed.

(** [download], phase by phase: the first phase is the same in every
    world and only logs; the second one works on the tree. *)
Lemma download_cases (self : ImageDownloader) (u save_to : string) :
  ∃ r evs,
    (∀ w, fetch_image self u w = (r, add_log w evs))
    ∧ ∀ w,
        download self u save_to w =
        match r with
        | Ok (Some image) =>
            try_except (store_image save_to (Some image)) (add_log w evs)
        | _ => (false, add_log w evs)
        end.
Proof.
  destruct (blind_fetch_image self u) as (r & evs & Hf).
  exists r, evs. split; [done|]. intros w.
  unfold download, try_except. rewrite download_body_phases.
  unfold mbind at 1. unfold M_bind at 1. rewrite Hf.
  by destruct r as [[image|]|e].
Qed.

Lemma download_on_tree (self : ImageDownloader) (u save_to : string) :
  ∃ o : option (Image Pix), ∀ w,
    let out := download self u save_to w in
    cwd (snd out) = cwd w ∧
    match o with
    | Some image =>
        fst out = fst (store_tree image save_to (cwd w) (fs w))
        ∧ fs (snd out) = snd (store_tree image save_to (cwd w) (fs w))
    | None => fst out = false ∧ fs (snd out) = fs w
    end.
Proof.
  destruct (download_cases self u save_to) as (r & evs & _ & Hd).
  destruct r as [[image|]|e].
  - exists (Some image). intros w. simpl. rewrite Hd.
    destruct (try_store_image image save_to (add_log w evs)) as (? & ? & ?).
    done.
  - exists None. intros w. simpl. by rewrite Hd.
  - exists None. intros w. simpl. by rewrite Hd.
Qed.

Lemma transform_ok_size (self : ImageDownloader) (rgb image : Image Pix) evs :
  0 < crop_resize self → transform_ok self rgb image evs →
  size image = (crop_resize self, crop_resize self).
Proof.
  intros HT [image0 Hle|image0 nw nh b resized cropped _ _ Hcb _ Hcp]; [lia|].
  destruct b as [[[x0 y0] x1] y1]. apply crop_box_size in Hcb as [Hx Hy].
  unfold pil_crop in Hcp.
  destruct ((x1 <? x0) || (y1 <? y0)); [done|].
  destruct (crop_pixels resized (x0, y0, x1, y1)); [|done].
  injection Hcp as <-. simpl. by rewrite Hx, Hy.
Qed.

(** C1: when [download] returns [True] and [crop_resize] is positive, the
    image handed to [save], whose encoding is the content of the file at
    the destination afterwards, has the size [(crop_resize,
    crop_resize)]. *)
Theorem download_writes_square (self : ImageDownloader)
  (u save_to : string) (w w' : World) :
  0 < crop_resize self →
  download self u save_to w = (true, w') →
  ∃ image bytes,
    size image = (crop_resize self, crop_resize self)
    ∧ List.last (log w') (EvGet u) = EvSave image save_to
    ∧ save_handler save_to image = Some (bytes, true)
    ∧ Fs.file_at (cwd w') save_to (fs w') = Some bytes.
Proof.
  intros HT Hd. apply download_true_iff in Hd.
  destruct Hd as [response opened rgb image evs t1 p bytes
                    _ _ _ _ _ Htr _ Hsh Hot ->].
  exists image, bytes. split_and!; [|  |done|].
  - by eapply transform_ok_size.
  - apply last_app_two.
  - by apply file_at_insert.
Qed.

(** A response with a bad status code or with the dead-link mark in its
    final URL ends the download after the one call of [requests.get]. *)
Lemma download_bad_response (self : ImageDownloader)
  (u save_to : string) (w : World) (response : Response) :
  http_get u = Ok response →
  negb (status_code response =? 200)
  || PyStr.contains "removed.png" (url response) = true →
  download self u save_to w = (false, add_log w [EvGet u]).
Proof.
  intros Hget Hc.
  unfold download, try_except, download_body, requests_get, call.
  unfold mbind, M_bind, emit, lift, mret, M_ret. simpl.
  by rewrite Hget, Hc.
Qed.

Lemma bad_response_test (response : Response) :
  status_code response ≠ 200
  ∨ (∃ pre post, url response = (pre ++ "removed.png" ++ post)%string) →
  negb (status_code response =? 200)
  || PyStr.contains "removed.png" (url response) = true.
Proof.
  intros [Hst|Hrm]; apply orb_true_iff.
  - left. apply negb_true_iff. lia.
  - right. by apply PyStrFacts.contains_spec.
Qed.

(** C2: when the status code of the response is not 200, and when the
    final URL of the response contains "removed.png" (whatever the status
    code), [download] returns [False]; the only call it has made is the
    [requests.get]: nothing is decoded, and the file system is as it
    was. *)
Theorem download_rejects_response (self : ImageDownloader)
  (u save_to : string) (w : World) (response : Response) :
  http_get u = Ok response →
  status_code response ≠ 200
  ∨ (∃ pre post, url response = (pre ++ "removed.png" ++ post)%string) →
  download self u save_to w
  = (false, {| cwd := cwd w; fs := fs w; log := log w ++ [EvGet u] |}).
Proof.
  intros Hget Hbad.
  apply (download_bad_response self u save_to w response Hget).
  by apply bad_response_test.
Qed.

(** C5: when [download] returns [True] and [crop_resize] is not positive,
    no [resize] and no [crop] is called: the image handed to [save] is the
    decoded image converted to RGB, of the size of the decoded image, and
    its encoding is the content of the file at the destination. *)
Theorem download_without_resize (self : ImageDownloader)
  (u save_to : string) (w w' : World) :
  crop_resize self <= 0 →
  download self u save_to w = (true, w') →
  ∃ response opened rgb bytes,
    http_get u = Ok response
    ∧ decode_header (content response) = Ok opened
    ∧ pil_convert opened "RGB" = Ok rgb
    ∧ size rgb = size opened
    ∧ log w' = log w ++ [EvGet u; EvOpen (content response);
                         EvConvert "RGB";
                         EvMakedirs (PyStr.dirname save_to);
                         EvSave rgb save_to]
    ∧ save_handler save_to rgb = Some (bytes, true)
    ∧ Fs.file_at (cwd w') save_to (fs w') = Some bytes.
Proof.
  intros HT Hd. apply download_true_iff in Hd.
  destruct Hd as [response opened rgb image evs t1 p bytes
                    Hget _ _ Hop Hcv Htr _ Hsh Hot ->].
  destruct Htr as [image _|]; [|lia].
  exists response, opened, image, bytes. simpl.
  split_and!; try done.
  - unfold pil_convert in Hcv.
    destruct (convert_pixels opened "RGB"); [|done]. by injection Hcv as <-.
  - by apply file_at_insert.
Qed.

(** C6: [download] returns a boolean for every input and every world.  It
    returns [True] exactly when every step completes without error
    ([completes]); a transport error, a bad status code, the dead-link
    mark, a decoding error, an error of the file system and an error of
    the encoder each make it return [False]. *)
Theorem download_classification (self : ImageDownloader)
  (u save_to : string) (w : World) :
  (∀ w', download self u save_to w = (true, w')
         ↔ completes self u save_to w w')
  ∧ (∀ e, http_get u = Raise e → fst (download self u save_to w) = false)
  ∧ (∀ response,
       http_get u = Ok response →
       status_code response ≠ 200
       ∨ PyStr.contains "removed.png" (url response) = true →
       fst (download self u save_to w) = false)
  ∧ (∀ response e,
       http_get u = Ok response →
       decode_header (content response) = Raise e →
       fst (download self u save_to w) = false)
  ∧ (∀ response opened e,
       http_get u = Ok response →
       decode_header (content response) = Ok opened →
       pil_convert opened "RGB" = Raise e →
       fst (download self u save_to w) = false)
  ∧ (∀ e t1,
       Fs.makedirs (cwd w) (PyStr.dirname save_to) (fs w) = (Raise e, t1) →
       fst (download self u save_to w) = false)
  ∧ (∀ t1 e,
       Fs.makedirs (cwd w) (PyStr.dirname save_to) (fs w) = (Ok tt, t1) →
       Fs.open_target (cwd w) save_to t1 = Raise e →
       fst (download self u save_to w) = false)
  ∧ ((∀ image bytes, save_handler save_to image ≠ Some (bytes, true)) →
       fst (download self u save_to w) = false).
Proof.
  assert (∀ P : Prop,
            (∀ w', completes self u save_to w w' → P → False) →
            P → fst (download self u save_to w) = false) as Hno.
  { intros P HP p.
    destruct (download self u save_to w) as [[] w'] eqn:Hd; [|done].
    apply download_true_iff in Hd. destruct (HP _ Hd p). }
  split; [intros w'; apply download_true_iff|].
  split_and!.
  - intros e He. apply (Hno (http_get u = Raise e)); [|done].
    intros w' []. congruence.
  - intros response Hget Hbad.
    apply (Hno (http_get u = Ok response
                ∧ (status_code response ≠ 200
                   ∨ PyStr.contains "removed.png" (url response) = true)));
      [|done].
    intros w' [] [Hg [Hs|Hr]]; congruence.
  - intros response e Hget Hop.
    apply (Hno (http_get u = Ok response
                ∧ decode_header (content response) = Raise e)); [|done].
    intros w' [] [Hg Ho]. congruence.
  - intros response opened e Hget Hop Hcv.
    apply (Hno (http_get u = Ok response
                ∧ decode_header (content response) = Ok opened
                ∧ pil_convert opened "RGB" = Raise e)); [|done].
    intros w' [] (Hg & Ho & Hc). congruence.
  - intros e t1 Hmk.
    apply (Hno (Fs.makedirs (cwd w) (PyStr.dirname save_to) (fs w)
                = (Raise e, t1))); [|done].
    intros w' []. congruence.
  - intros t1 e Hmk Hot.
    apply (Hno (Fs.makedirs (cwd w) (PyStr.dirname save_to) (fs w) = (Ok tt, t1)
                ∧ Fs.open_target (cwd w) save_to t1 = Raise e)); [|done].
    intros w' [] [Hm Ho]. congruence.
  - intros Hsh.
    apply (Hno (∀ image bytes, save_handler save_to image ≠ Some (bytes, true)));
      [|done].
    intros w' [] Hs. by eapply Hs.
Qed.

(** C7: when the download fails at the validation (status code other than
    200, "removed.png" in the final URL) or at the decoding (the bytes are
    no image, or their pixels cannot be loaded), [download] returns
    [False], the file system is as it was, and neither [os.makedirs] nor
    [save] has been called. *)
Theorem download_failure_keeps_fs (self : ImageDownloader)
  (u save_to : string) (w : World) (response : Response) :
  http_get u = Ok response →
  status_code response ≠ 200
  ∨ (∃ pre post, url response = (pre ++ "removed.png" ++ post)%string)
  ∨ (∃ e, decode_header (content response) = Raise e)
  ∨ (∃ opened e, decode_header (content response) = Ok opened
                 ∧ pil_convert opened "RGB" = Raise e) →
  fst (download self u save_to w) = false
  ∧ fs (snd (download self u save_to w)) = fs w
  ∧ Forall (λ ev, match ev with
                  | EvMakedirs _ | EvSave _ _ => False
                  | _ => True
                  end) (drop (length (log w)) (log (snd (download self u save_to w)))).
Proof.
  intros Hget Hbad.
  destruct Hbad as [Hst|[Hrm|Hdec]].
  - rewrite (download_bad_response self u save_to w response Hget);
      [|apply bad_response_test; by left].
    simpl. rewrite drop_app_length. by repeat constructor.
  - rewrite (download_bad_response self u save_to w response Hget);
      [|apply bad_response_test; by right].
    simpl. rewrite drop_app_length. by repeat constructor.
  - unfold download, try_except, download_body, requests_get, Image_open,
      Image_convert, call.
    unfold mbind, M_bind, emit, lift, mret, M_ret. simpl. rewrite Hget.
    destruct (negb (status_code response =? 200)
              || PyStr.contains "removed.png" (url response)).
    { simpl. rewrite drop_app_length. by repeat constructor. }
    destruct Hdec as [[e He]|(opened & e & Hop & Hcv)].
    + rewrite He. simpl. rewrite <- app_assoc, drop_app_length.
      by repeat constructor.
    + rewrite Hop, Hcv. simpl. rewrite <- !app_assoc, drop_app_length.
      by repeat constructor.
Qed.

(** C8: with the network and the codecs fixed, a second [download] of the
    same URL to the same destination returns what the first one returned
    and leaves the file system, and so the bytes of the file at the
    destination, as the first one left them. *)
Theorem download_idempotent (self : ImageDownloader)
  (u save_to : string) (w : World) :
  let first := download self u save_to w in
  let second := download self u save_to (snd first) in
  fst second = fst first
  ∧ fs (snd second) = fs (snd first)
  ∧ Fs.file_at (cwd (snd second)) save_to (fs (snd second))
    = Fs.file_at (cwd (snd first)) save_to (fs (snd first)).
Proof.
  destruct (download_on_tree self u save_to) as [o Ho].
  pose proof (Ho w) as (Hc1 & H1).
  pose proof (Ho (snd (download self u save_to w))) as (Hc2 & H2).
  simpl in *.
  assert (fst (download self u save_to (snd (download self u save_to w)))
          = fst (download self u save_to w)
          ∧ fs (snd (download self u save_to (snd (download self u save_to w))))
            = fs (snd (download self u save_to w))) as [Hb Hfs].
  { destruct o as [image|].
    - destruct H1 as [Hb1 Hf1], H2 as [Hb2 Hf2].
      rewrite Hc1, Hf1 in Hb2, Hf2.
      destruct (store_tree image save_to (cwd w) (fs w)) as [b t'] eqn:Hst.
      simpl in *. rewrite (store_tree_idem _ _ _ _ _ _ Hst) in Hb2, Hf2.
      simpl in *. by rewrite Hb1, Hb2, Hf1, Hf2.
    - destruct H1 as [Hb1 Hf1], H2 as [Hb2 Hf2]. by rewrite Hb1, Hb2, Hf2. }
  split_and!; [done|done|]. by rewrite Hfs, Hc2.
Qed.

(** C10: for a destination whose directory part is the empty string (a
    bare file name), [download] returns [False] and leaves the file system
    as it was; when every step before it completes, the call that fails is
    [os.makedirs("")], and [save] is not called. *)
Theorem download_bare_filename (self : ImageDownloader)
  (u save_to : string) (w : World) :
  PyStr.dirname save_to = EmptyString →
  fst (download self u save_to w) = false
  ∧ fs (snd (download self u save_to w)) = fs w
  ∧ ∀ image w1,
      fetch_image self u w = (Ok (Some image), w1) →
      download self u save_to w
      = (false, add_log w1 [EvMakedirs EmptyString]).
Proof.
  intros Hdir.
  destruct (download_on_tree self u save_to) as [o Ho].
  destruct (Ho w) as (_ & Hw). split_and!.
  - destruct o as [image|]; [|by destruct Hw].
    unfold store_tree in Hw. rewrite Hdir in Hw. by destruct Hw.
  - destruct o as [image|]; [|by destruct Hw].
    unfold store_tree in Hw. rewrite Hdir in Hw. by destruct Hw.
  - intros image w1 Hf.
    unfold download, try_except. rewrite download_body_phases.
    unfold mbind at 1. unfold M_bind at 1. rewrite Hf.
    unfold store_image, os_makedirs, on_fs.
    unfold mbind, M_bind, emit. rewrite Hdir. by destruct w1.
Qed.

End DownloadFacts.

(** ** More on [download] *)

Section DownloadMore.

Context {collab : Collaborators}.

(** [save] changes no directory, and no node but the file it opens. *)
Lemma save_file_frame (image : Image Pix) (name : string) (c : Fs.loc)
  (t : Fs.tree) :
  let t' := snd (save_file image name c t) in
  Fs.same_dirs t t'
  ∧ ∀ q n, t !! q = Some n →
      t' !! q = Some n
      ∨ ((∃ bytes, n = Fs.File bytes) ∧ Fs.open_target c name t' = Ok q).
Proof.
  unfold save_file.
  destruct (save_handler name image) as [[bytes finished]|];
    [|by split; [|intros; left]].
  destruct (Fs.open_target c name t) as [p|e] eqn:Ho;
    [|by split; [|intros; left]].
  destruct (open_target_Ok _ _ _ _ Ho) as (_ & Hp & Hnil & _).
  pose proof (path_exists_open_target _ _ _ _ Ho) as Hex.
  pose proof (same_dirs_insert_file t p bytes Hp) as Hs.
  pose proof (open_target_same_dirs _ _ _ _ _ Hs Ho) as Ho2.
  assert (∀ q n, t !! q = Some n →
            <[p:=Fs.File bytes]> t !! q = Some n
            ∨ ((∃ bytes, n = Fs.File bytes)
               ∧ Fs.open_target c name (<[p:=Fs.File bytes]> t) = Ok q)) as Hins.
  { intros q n Hq. destruct (decide (p = q)) as [->|Hne].
    - right. split; [|done].
      destruct n as [|b]; [|by eexists].
      unfold Fs.is_dir in Hp. destruct q; [done|]. by rewrite Hq in Hp.
    - left. by rewrite lookup_insert_ne. }
  destruct finished; simpl; [done|].
  rewrite Hex. destruct (Fs.exists_at t p) eqn:Hep; simpl; [done|].
  rewrite (delete_id _ _ (exists_at_None _ _ Hep)). by split; [|intros; left].
Qed.

(** The second phase of [download] keeps every node that was there, but
    for the file at the destination. *)
Lemma store_tree_frame (image : Image Pix) (save_to : string) (c : Fs.loc)
  (t : Fs.tree) (q : Fs.loc) (n : Fs.node) :
  t !! q = Some n →
  let t' := snd (store_tree image save_to c t) in
  t' !! q = Some n
  ∨ ((∃ bytes, n = Fs.File bytes) ∧ Fs.open_target c save_to t' = Ok q).
Proof.
  intros Hq. unfold store_tree.
  destruct (Fs.makedirs c (PyStr.dirname save_to) t) as [[[]|e] t1] eqn:Hmk.
  - pose proof (Fs_makedirs_grows _ _ _ _ _ Hmk) as Hsub.
    pose proof (lookup_weaken _ _ _ _ Hq Hsub) as Hq1.
    destruct (save_file_frame image save_to c t1) as [_ Hfr].
    specialize (Hfr q n Hq1).
    by destruct (save_file image save_to c t1) as [r t2].
  - left. simpl. exact (lookup_weaken _ _ _ _ Hq (Fs_makedirs_grows _ _ _ _ _ Hmk)).
Qed.


(** [convert], [resize] and [crop] at work: the mode of the image that
    comes out of the transform is the mode of the image that goes in. *)
Lemma transform_ok_mode (self : ImageDownloader) (rgb image : Image Pix) evs :
  transform_ok self rgb image evs → mode image = mode rgb.
Proof.
  intros [image0 _|image0 nw nh b resized cropped _ _ _ Hrs Hcp]; [done|].
  unfold pil_resize in Hrs.
  destruct ((fst (nw, nh) <? 1) || (snd (nw, nh) <? 1)); [done|].
  destruct (resize_pixels image0 (nw, nh)); [|done]. injection Hrs as <-.
  unfold pil_crop in Hcp. destruct b as [[[x0 y0] x1] y1].
  destruct ((x1 <? x0) || (y1 <? y0)); [done|].
  destruct (crop_pixels _ (x0, y0, x1, y1)); [|done]. by injection Hcp as <-.
Qed.

Lemma pil_convert_mode (opened rgb : Image Pix) (to : string) :
  pil_convert opened to = Ok rgb → mode rgb = to ∧ size rgb = size opened.
Proof.
  unfold pil_convert. destruct (convert_pixels opened to); [|done].
  by intros [= <-].
Qed.


(** When the transform cannot compute the new size, the download ends
    after [convert]. *)
Lemma download_no_new_size (self : ImageDownloader) (u save_to : string)
  (w : World) (response : Response) (opened rgb : Image Pix) (e : exn) :
  0 < crop_resize self →
  http_get u = Ok response →
  status_code response = 200 →
  PyStr.contains "removed.png" (url response) = false →
  decode_header (content response) = Ok opened →
  pil_convert opened "RGB" = Ok rgb →
  new_size (crop_resize self) (fst (size rgb)) (snd (size rgb)) = Raise e →
  download self u save_to w
  = (false, add_log w [EvGet u; EvOpen (content response); EvConvert "RGB"]).
Proof.
  intros HT Hget Hst Hrm Hop Hcv Hns.
  unfold download, try_except, download_body, requests_get, Image_open,
    Image_convert, call, add_log.
  unfold mbind, M_bind, emit, lift, mret, M_ret. simpl.
  rewrite Hget, Hst, Hrm, Hop, Hcv. simpl.
  replace (crop_resize self >? 0) with true by lia.
  destruct (size rgb) as [iw ih]. simpl in *. rewrite Hns.
  by rewrite <- !app_assoc.
Qed.

(** X7: [download] makes one request, first, and never a second one;
    [save] is the last call it makes, if it makes it. *)
Theorem download_single_request (self : ImageDownloader)
  (u save_to : string) (w : World) :
  ∃ evs,
    log (snd (download self u save_to w)) = log w ++ EvGet u :: evs
    ∧ Forall (λ ev, match ev with EvGet _ => False | _ => True end) evs
    ∧ Forall (λ ev, match ev with EvSave _ _ => False | _ => True end)
        (removelast evs).
Proof.
  unfold download, try_except, download_body, requests_get, Image_open,
    Image_convert, Image_resize, Image_crop, os_makedirs, Image_save,
    call, on_fs, set_fs.
  unfold mbind, M_bind, emit, lift, mret, M_ret. simpl.
  repeat case_match; simplify_eq/=;
    (eexists; split; [rewrite <- ?app_assoc; simpl; reflexivity|];
     split; simpl; repeat constructor).
Qed.

(** X8: the file system is written to only once the image is ready: when
    a download has changed it, the request, the validation, the decoding,
    the conversion and the transform have all completed, and the first
    call after them is [os.makedirs]. *)
Theorem download_writes_ready_image (self : ImageDownloader)
  (u save_to : string) (w : World) :
  fs (snd (download self u save_to w)) ≠ fs w →
  ∃ response opened rgb image evs,
    http_get u = Ok response
    ∧ status_code response = 200
    ∧ PyStr.contains "removed.png" (url response) = false
    ∧ decode_header (content response) = Ok opened
    ∧ pil_convert opened "RGB" = Ok rgb
    ∧ transform_ok self rgb image evs
    ∧ ∃ rest,
        log (snd (download self u save_to w))
        = log w ++ [EvGet u; EvOpen (content response); EvConvert "RGB"]
          ++ evs ++ EvMakedirs (PyStr.dirname save_to) :: rest.
Proof.
  destruct (download_cases self u save_to) as (r & evs & Hf & Hd).
  rewrite Hd. destruct r as [[image|]|e]; [|done..].
  intros _. specialize (Hf w).
  apply fetch_image_Some in Hf
    as (response & opened & rgb & evs' & Hget & Hst & Hrm & Hop & Hcv & Htr & Hw).
  exists response, opened, rgb, image, evs'. split_and!; try done.
  injection Hw as Hl. apply app_inv_head in Hl. subst evs.
  unfold try_except, store_image, os_makedirs, Image_save, on_fs, set_fs.
  unfold mbind, M_bind, emit, mret, M_ret. simpl.
  destruct (Fs.makedirs _ _ _) as [[[]|e] t1]; simpl.
  - destruct (save_file _ _ _ _) as [[[]|e] t2]; simpl;
      eexists; rewrite <- !app_assoc; simpl; reflexivity.
  - eexists. rewrite <- !app_assoc. simpl. reflexivity.
Qed.

(** X9: whatever a download does, every directory and every file that
    was there before is there unchanged afterwards, but for the regular
    file at the destination. *)
Theorem download_frame (self : ImageDownloader) (u save_to : string)
  (w : World) (q : Fs.loc) (n : Fs.node) :
  fs w !! q = Some n →
  let w' := snd (download self u save_to w) in
  fs w' !! q = Some n
  ∨ ((∃ bytes, n = Fs.File bytes)
     ∧ Fs.open_target (cwd w) save_to (fs w') = Ok q).
Proof.
  intros Hq. destruct (download_on_tree self u save_to) as [o Ho].
  destruct (Ho w) as (_ & Hw). simpl.
  destruct o as [image|].
  - destruct Hw as [_ ->]. by apply store_tree_frame.
  - destruct Hw as [_ ->]. by left.
Qed.


(** X11: a destination that ends in a separator names no file:
    [download] returns [False], whatever the page is, and every node of
    the file system is kept as it was ([os.makedirs] may have added
    directories). *)
Theorem download_to_directory_path (self : ImageDownloader)
  (u d : string) (w : World) :
  let out := download self u (d ++ "/") w in
  fst out = false
  ∧ ∀ q n, fs w !! q = Some n → fs (snd out) !! q = Some n.
Proof.
  simpl. split.
  - destruct (download self u (d ++ "/") w) as [[] w'] eqn:Hd; [|done].
    apply download_true_iff in Hd.
    destruct Hd as [? ? ? ? ? t1 p ? _ _ _ _ _ _ _ _ Hot _].
    destruct (open_target_trailing (cwd w) d t1) as [e He]. congruence.
  - intros q n Hq. destruct (download_on_tree self u (d ++ "/")) as [o Ho].
    destruct (Ho w) as (_ & Hw). simpl in Hw.
    destruct o as [image|]; destruct Hw as [_ ->]; [|done].
    destruct (store_tree_frame image (d ++ "/") (cwd w) (fs w) q n Hq)
      as [H|[_ H]]; [done|].
    destruct (open_target_trailing (cwd w) d
                (snd (store_tree image (d ++ "/") (cwd w) (fs w)))) as [e He].
    congruence.
Qed.


(** X13: a target size of [2^1024] or more is no float: every download
    returns [False] and leaves the file system as it was. *)
Theorem download_target_overflow (self : ImageDownloader)
  (u save_to : string) (w : World) :
  2 ^ 1024 <= crop_resize self →
  fst (download self u save_to w) = false
  ∧ fs (snd (download self u save_to w)) = fs w.
Proof.
  intros HT.
  destruct (download_cases self u save_to) as (r & evs & Hf & Hd).
  rewrite Hd. destruct r as [[image|]|e]; [|done..].
  specialize (Hf w).
  apply fetch_image_Some in Hf
    as (response & opened & rgb & evs' & _ & _ & _ & _ & _ & Htr & _).
  assert (0 < 2 ^ 1024) by (by apply Z.pow_pos_nonneg).
  destruct Htr as [image Hle|image nw nh b resized cropped _ Hns _ _ _]; [lia|].
  by rewrite (new_size_overflow _ _ _ HT) in Hns.
Qed.

(** X14: an image with an edge of no pixel and a positive target size:
    the scale cannot be computed (a division by zero); [download] returns
    [False] after [convert], without a call of [resize], and the file
    system is as it was. *)
Theorem download_zero_edge (self : ImageDownloader) (u save_to : string)
  (w : World) (response : Response) (opened rgb : Image Pix) :
  0 < crop_resize self →
  http_get u = Ok response →
  status_code response = 200 →
  PyStr.contains "removed.png" (url response) = false →
  decode_header (content response) = Ok opened →
  pil_convert opened "RGB" = Ok rgb →
  Z.min (fst (size rgb)) (snd (size rgb)) = 0 →
  download self u save_to w
  = (false, add_log w [EvGet u; EvOpen (content response); EvConvert "RGB"]).
Proof.
  intros HT Hget Hst Hrm Hop Hcv Hz.
  destruct (new_size_zero_raises (crop_resize self) _ _ Hz) as [Hns|Hns];
    by eapply download_no_new_size.
Qed.

(** X15: the counterpart of the run without resize: when [download]
    returns [True] and [crop_resize] is positive, it has made exactly
    seven calls, in this order: [get], [open], [convert], [resize] to the
    new size computed from the size of the decoded image, [crop] to the
    crop box computed from the new size, [makedirs] and [save] of the
    cropped image. *)
Theorem download_with_resize (self : ImageDownloader)
  (u save_to : string) (w w' : World) :
  0 < crop_resize self →
  download self u save_to w = (true, w') →
  ∃ response opened rgb new_width new_height b resized cropped,
    http_get u = Ok response
    ∧ decode_header (content response) = Ok opened
    ∧ pil_convert opened "RGB" = Ok rgb
    ∧ new_size (crop_resize self) (fst (size opened)) (snd (size opened))
      = Ok (new_width, new_height)
    ∧ crop_box (crop_resize self) new_width new_height = Ok b
    ∧ pil_resize rgb (new_width, new_height) = Ok resized
    ∧ pil_crop resized b = Ok cropped
    ∧ log w' = log w ++ [EvGet u; EvOpen (content response);
                         EvConvert "RGB";
                         EvResize (new_width, new_height); EvCrop b;
                         EvMakedirs (PyStr.dirname save_to);
                         EvSave cropped save_to].
Proof.
  intros HT Hd. apply download_true_iff in Hd.
  destruct Hd as [response opened rgb image evs t1 p bytes
                    Hget _ _ Hop Hcv Htr _ _ _ ->].
  destruct Htr as [image Hle|image nw nh b resized cropped _ Hns Hcb Hrs Hcp];
    [lia|].
  exists response, opened, image, nw, nh, b, resized, cropped.
  split_and!; try done.
  apply pil_convert_mode in Hcv as [_ <-]. done.
Qed.

(** X16: what is saved is an RGB image, with or without resize. *)
Theorem download_saves_rgb (self : ImageDownloader)
  (u save_to : string) (w w' : World) :
  download self u save_to w = (true, w') →
  ∃ image,
    List.last (log w') (EvGet u) = EvSave image save_to
    ∧ mode image = "RGB"%string.
Proof.
  intros Hd. apply download_true_iff in Hd.
  destruct Hd as [response opened rgb image evs t1 p bytes
                    _ _ _ _ Hcv Htr _ _ _ ->].
  exists image. split; [apply last_app_two|].
  rewrite (transform_ok_mode _ _ _ _ Htr).
  by apply pil_convert_mode in Hcv as [-> _].
Qed.

(** X17: a downloader made without an argument crops to 512: the image
    that a successful download saves is 512 pixels wide and 512 pixels
    high.  A downloader made with a positive target size saves a square
    of that size, one made with a target size that is not positive saves
    the image in the size it was decoded in. *)
Theorem init_default_target (o : option Z) (u save_to : string)
  (w w' : World) :
  download (__init__ o) u save_to w = (true, w') →
  ∃ response opened image bytes,
    http_get u = Ok response
    ∧ decode_header (content response) = Ok opened
    ∧ List.last (log w') (EvGet u) = EvSave image save_to
    ∧ Fs.file_at (cwd w') save_to (fs w') = Some bytes
    ∧ save_handler save_to image = Some (bytes, true)
    ∧ match o with
      | None => size image = (512, 512)
      | Some k => size image = if k >? 0 then (k, k) else size opened
      end.
Proof.
  intros Hd. apply download_true_iff in Hd.
  destruct Hd as [response opened rgb image evs t1 p bytes
                    Hget _ _ Hop Hcv Htr _ Hsh Hot ->].
  exists response, opened, image, bytes.
  split_and!; try done.
  - apply last_app_two.
  - by apply file_at_insert.
  - destruct o as [k|].
    + assert (crop_resize (__init__ (Some k)) = k) as Hk by done.
      destruct (k >? 0) eqn:Hpos.
      * rewrite <- Hk. apply (transform_ok_size _ rgb _ evs); [lia|done].
      * destruct Htr as [image _|]; [|lia].
        by apply pil_convert_mode in Hcv as [_ ->].
    + assert (crop_resize (__init__ None) = 512) as Hk by done.
      rewrite <- Hk. apply (transform_ok_size _ rgb _ evs); [lia|done].
Qed.

End DownloadMore.

(** ** The properties at work in the small world *)

#[local] Existing Instance Demo.collaborators.

Lemma download_writes_square_witness :
  let self := {| crop_resize := 2 |} in
  let w' := snd (download self Demo.cat_url "img/cat.png" Demo.world) in
  0 < crop_resize self
  /\ download self Demo.cat_url "img/cat.png" Demo.world = (true, w')
  /\ exists image bytes,
       size image = (crop_resize self, crop_resize self)
       /\ List.last (log w') (EvGet Demo.cat_url) = EvSave image "img/cat.png"
       /\ save_handler "img/cat.png" image = Some (bytes, true)
       /\ Fs.file_at (cwd w') "img/cat.png" (fs w') = Some bytes.
Proof.
  intros self w'. split; [reflexivity|]. split; [vm_compute; reflexivity|].
  apply (download_writes_square self Demo.cat_url "img/cat.png" Demo.world w');
    [reflexivity|vm_compute; reflexivity].
Defined.

Lemma download_rejects_response_witness :
  let response := {| status_code := 200;
                     url := "https://i.imgur.com/removed.png";
                     content := [x01; x01; x00] |} in
  http_get Demo.gone_url = Ok response
  /\ (status_code response <> 200
      \/ exists pre post,
           url response = (pre ++ "removed.png" ++ post)%string)
  /\ download {| crop_resize := 512 |} Demo.gone_url "img/gone.png" Demo.world
     = (false, {| cwd := cwd Demo.world; fs := fs Demo.world;
                  log := log Demo.world ++ [EvGet Demo.gone_url] |}).
Proof.
  intros response.
  assert (status_code response <> 200
          \/ exists pre post,
               url response = (pre ++ "removed.png" ++ post)%string) as Hbad.
  { right. exists "https://i.imgur.com/"%string, ""%string. reflexivity. }
  split; [reflexivity|]. split; [exact Hbad|].
  apply (download_rejects_response {| crop_resize := 512 |} Demo.gone_url
           "img/gone.png" Demo.world response); [reflexivity|exact Hbad].
Defined.

Lemma download_without_resize_witness :
  let self := {| crop_resize := -1 |} in
  let w' := snd (download self Demo.cat_url "img/cat.png" Demo.world) in
  crop_resize self <= 0
  /\ download self Demo.cat_url "img/cat.png" Demo.world = (true, w')
  /\ exists response opened rgb bytes,
       http_get Demo.cat_url = Ok response
       /\ decode_header (content response) = Ok opened
       /\ pil_convert opened "RGB" = Ok rgb
       /\ size rgb = size opened
       /\ log w' = log Demo.world
                   ++ [EvGet Demo.cat_url; EvOpen (content response);
                       EvConvert "RGB";
                       EvMakedirs (PyStr.dirname "img/cat.png");
                       EvSave rgb "img/cat.png"]
       /\ save_handler "img/cat.png" rgb = Some (bytes, true)
       /\ Fs.file_at (cwd w') "img/cat.png" (fs w') = Some bytes.
Proof.
  intros self w'. split; [discriminate|]. split; [vm_compute; reflexivity|].
  apply (download_without_resize self Demo.cat_url "img/cat.png" Demo.world w');
    [discriminate|vm_compute; reflexivity].
Defined.

Lemma download_failure_keeps_fs_witness :
  let self := {| crop_resize := 512 |} in
  let response := {| status_code := 200; url := Demo.junk_url;
                     content := [x3c] |} in
  let out := download self Demo.junk_url "img/junk.png" Demo.world in
  http_get Demo.junk_url = Ok response
  /\ (exists e, decode_header (content response) = Raise e)
  /\ fst out = false
  /\ fs (snd out) = fs Demo.world
  /\ Forall (fun ev => match ev with
                       | EvMakedirs _ | EvSave _ _ => False
                       | _ => True
                       end)
       (drop (length (log Demo.world)) (log (snd out))).
Proof.
  intros self response out.
  assert (exists e, decode_header (content response) = Raise e) as Hdec.
  { exists UnidentifiedImageError. reflexivity. }
  split; [reflexivity|]. split; [exact Hdec|].
  apply (download_failure_keeps_fs self Demo.junk_url "img/junk.png"
           Demo.world response); [reflexivity|].
  right. right. left. exact Hdec.
Defined.

Lemma download_bare_filename_witness :
  let out := download {| crop_resize := 512 |} Demo.cat_url "cat.png"
               Demo.world in
  PyStr.dirname "cat.png" = EmptyString
  /\ fst out = false
  /\ fs (snd out) = fs Demo.world
  /\ forall image w1,
       fetch_image {| crop_resize := 512 |} Demo.cat_url Demo.world
       = (Ok (Some image), w1) ->
       out = (false, add_log w1 [EvMakedirs EmptyString]).
Proof.
  intros out. split; [reflexivity|].
  apply (download_bare_filename {| crop_resize := 512 |} Demo.cat_url
           "cat.png" Demo.world). reflexivity.
Defined.

(** The same download with a directory in the path succeeds. *)
Example download_with_directory :
  fst (download {| crop_resize := 512 |} Demo.cat_url "img/cat.png" Demo.world)
  = true.
Proof. vm_compute. reflexivity. Qed.

Lemma download_writes_ready_image_witness :
  let self := {| crop_resize := 2 |} in
  let out := download self Demo.cat_url "img/cat.png" Demo.world in
  fs (snd out) <> fs Demo.world
  /\ exists response opened rgb image evs,
       http_get Demo.cat_url = Ok response
       /\ status_code response = 200
       /\ PyStr.contains "removed.png" (url response) = false
       /\ decode_header (content response) = Ok opened
       /\ pil_convert opened "RGB" = Ok rgb
       /\ transform_ok self rgb image evs
       /\ exists rest,
            log (snd out)
            = log Demo.world
              ++ [EvGet Demo.cat_url; EvOpen (content response);
                  EvConvert "RGB"]
              ++ evs ++ EvMakedirs (PyStr.dirname "img/cat.png") :: rest.
Proof.
  intros self out.
  assert (fs (snd out) <> fs Demo.world) as Hne.
  { intros E.
    apply (f_equal (fun t => t !! ["home"; "img"]%string)) in E.
    vm_compute in E. discriminate E. }
  split; [exact Hne|].
  apply (download_writes_ready_image self Demo.cat_url "img/cat.png"
           Demo.world Hne).
Defined.

Lemma download_frame_witness :
  let w' := snd (download {| crop_resize := 2 |} Demo.cat_url "img/cat.png"
                   Demo.world) in
  fs Demo.world !! ["home"%string] = Some Fs.Dir
  /\ (fs w' !! ["home"%string] = Some Fs.Dir
      \/ ((exists bytes, Fs.Dir = Fs.File bytes)
          /\ Fs.open_target (cwd Demo.world) "img/cat.png" (fs w')
             = Ok ["home"%string])).
Proof.
  intros w'. split; [reflexivity|].
  apply (download_frame {| crop_resize := 2 |} Demo.cat_url "img/cat.png"
           Demo.world ["home"%string] Fs.Dir).
  reflexivity.
Defined.



Lemma download_target_overflow_witness :
  let self := {| crop_resize := 2 ^ 1024 |} in
  let out := download self Demo.cat_url "img/cat.png" Demo.world in
  2 ^ 1024 <= crop_resize self
  /\ fst out = false
  /\ fs (snd out) = fs Demo.world.
Proof.
  intros self out. split; [apply Z.le_refl|].
  apply (download_target_overflow self Demo.cat_url "img/cat.png" Demo.world).
  apply Z.le_refl.
Defined.

Lemma download_zero_edge_witness :
  let self := {| crop_resize := 512 |} in
  let u := "https://i.redd.it/blank.png"%string in
  let response := {| status_code := 200; url := u; content := [x00; x02] |} in
  let opened := {| mode := "P"%string; size := (0, 2); im := [] |} in
  let rgb := {| mode := "RGB"%string; size := (0, 2); im := [] |} in
  @http_get Blank.collaborators u = Ok response
  /\ @decode_header Blank.collaborators (content response) = Ok opened
  /\ @pil_convert Blank.collaborators opened "RGB" = Ok rgb
  /\ Z.min (fst (size rgb)) (snd (size rgb)) = 0
  /\ @download Blank.collaborators self u "img/blank.png" Blank.world
     = (false, @add_log Blank.collaborators Blank.world
                 [EvGet u; EvOpen (content response); EvConvert "RGB"]).
Proof.
  intros self u response opened rgb.
  split; [reflexivity|]. split; [reflexivity|]. split; [reflexivity|].
  split; [reflexivity|].
  apply (@download_zero_edge Blank.collaborators self u "img/blank.png"
           Blank.world response opened rgb); reflexivity.
Defined.

Lemma download_with_resize_witness :
  let self := {| crop_resize := 512 |} in
  let w' := snd (download self Demo.cat_url "img/cat.png" Demo.world) in
  0 < crop_resize self
  /\ download self Demo.cat_url "img/cat.png" Demo.world = (true, w')
  /\ exists response opened rgb new_width new_height b resized cropped,
       http_get Demo.cat_url = Ok response
       /\ decode_header (content response) = Ok opened
       /\ pil_convert opened "RGB" = Ok rgb
       /\ new_size (crop_resize self) (fst (size opened)) (snd (size opened))
          = Ok (new_width, new_height)
       /\ crop_box (crop_resize self) new_width new_height = Ok b
       /\ pil_resize rgb (new_width, new_height) = Ok resized
       /\ pil_crop resized b = Ok cropped
       /\ log w' = log Demo.world
                   ++ [EvGet Demo.cat_url; EvOpen (content response);
                       EvConvert "RGB";
                       EvResize (new_width, new_height); EvCrop b;
                       EvMakedirs (PyStr.dirname "img/cat.png");
                       EvSave cropped "img/cat.png"].
Proof.
  intros self w'. split; [reflexivity|]. split; [vm_compute; reflexivity|].
  apply (download_with_resize self Demo.cat_url "img/cat.png" Demo.world w');
    [reflexivity|vm_compute; reflexivity].
Defined.

Lemma download_saves_rgb_witness :
  let self := {| crop_resize := -1 |} in
  let w' := snd (download self Demo.cat_url "img/cat.png" Demo.world) in
  download self Demo.cat_url "img/cat.png" Demo.world = (true, w')
  /\ exists image,
       List.last (log w') (EvGet Demo.cat_url) = EvSave image "img/cat.png"
       /\ mode image = "RGB"%string.
Proof.
  intros self w'. split; [vm_compute; reflexivity|].
  apply (download_saves_rgb self Demo.cat_url "img/cat.png" Demo.world w').
  vm_compute; reflexivity.
Defined.

Lemma init_default_target_witness :
  let w' := snd (download (__init__ None) Demo.cat_url "img/cat.png"
                   Demo.world) in
  download (__init__ None) Demo.cat_url "img/cat.png" Demo.world = (true, w')
  /\ exists response opened image bytes,
       http_get Demo.cat_url = Ok response
       /\ decode_header (content response) = Ok opened
       /\ List.last (log w') (EvGet Demo.cat_url) = EvSave image "img/cat.png"
       /\ Fs.file_at (cwd w') "img/cat.png" (fs w') = Some bytes
       /\ save_handler "img/cat.png" image = Some (bytes, true)
       /\ size image = (512, 512).
Proof.
  intros w'. split; [vm_compute; reflexivity|].
  apply (init_default_target None Demo.cat_url "img/cat.png" Demo.world w').
  vm_compute; reflexivity.
Defined.
